(** * dfq: a directory-backed FIFO queue, one file per record

    A shallow embedding of [queue.go] and [interfaces.go].  The queue
    struct lives in a heap indexed by pointers, the file system is a
    finite map from paths to bytes, and every method of the Go type is a
    state transformer over the world made of both.  The mutexes of the
    Go code are not modelled: methods run one at a time, which also
    leaves [Wait], the one method that blocks, outside the model. *)

From Stdlib Require Import ZArith Lia.
From Stdlib.Strings Require Import String Ascii Byte.
From stdpp Require Import base tactics option list list_numbers sorting
  gmap strings pretty.

Local Open Scope string_scope.
Local Open Scope Z_scope.

(** ** int64 *)

Module Int64.

Definition min : Z := - 2 ^ 63.
Definition max : Z := 2 ^ 63 - 1.

(** Two's complement wrap-around of Go's signed 64-bit arithmetic. *)
Definition wrap (z : Z) : Z := (z + 2 ^ 63) mod 2 ^ 64 - 2 ^ 63.

Definition add (a b : Z) : Z := wrap (a + b).
Definition sub (a b : Z) : Z := wrap (a - b).

Definition in_range (z : Z) : Prop := min <= z <= max.

End Int64.

(** ** Errors

    A Go [error] value is [option error], [None] being [nil]. *)

Inductive error : Type :=
  | ErrNotExist                       (* a *PathError carrying ENOENT *)
  | ErrOS (code : nat)                (* any other failure of a system call *)
  | ErrEmptyQueue                     (* interfaces.go: ErrEmptyQueue *)
  | ErrSyntax                         (* strconv.ErrSyntax *)
  | ErrRange                          (* strconv.ErrRange *)
  | ErrUser (msg : string)            (* an error made by the caller's code *)
  | ErrWrap (msg : string) (e : error). (* fmt.Errorf("msg: %w", e) *)

Global Instance error_eq_dec : EqDecision error.
Proof. solve_decision. Defined.

(** [os.IsNotExist] looks at the error itself and does not unwrap
    errors made by [fmt.Errorf]. *)
Definition IsNotExist (err : option error) : bool :=
  match err with
  | Some ErrNotExist => true
  | _ => false
  end.

(** ** Names of directory entries *)

Definition dataSuffix : string := ".data".
Definition tempSuffix : string := ".temp".

(** [strings.HasSuffix]:
    [len(s) >= len(suffix) && s[len(s)-len(suffix):] == suffix]. *)
Definition HasSuffix (s suffix : string) : bool :=
  (String.length suffix <=? String.length s)%nat
  && String.eqb
       (substring (String.length s - String.length suffix)
                  (String.length suffix) s)
       suffix.

(** [name[:len(name)-len(suffix)]] *)
Definition cutSuffix (name suffix : string) : string :=
  substring 0 (String.length name - String.length suffix) name.

Definition digit (c : ascii) : option N :=
  let n := N_of_ascii c in
  if ((48 <=? n) && (n <=? 57))%N then Some (n - 48)%N else None.

(** The loop of [strconv.ParseUint] in base 10 with 64 bits: a
    character that is not a digit is a syntax error, and the value
    leaving uint64 is a range error, whichever comes first. *)
Fixpoint parseDigits (s : string) (acc : N) : N + error :=
  match s with
  | EmptyString => inl acc
  | String c rest =>
      match digit c with
      | Some d =>
          let n1 := (acc * 10 + d)%N in
          if (2 ^ 64 <=? n1)%N then inr ErrRange else parseDigits rest n1
      | None => inr ErrSyntax
      end
  end.

(** [strconv.ParseInt(s, 10, 64)]: an optional sign, then at least one
    decimal digit; a value outside int64 is a range error. *)
Definition ParseInt (s : string) : Z + error :=
  match s with
  | EmptyString => inr ErrSyntax
  | String c rest =>
      let neg := Ascii.eqb c "-" in
      let body := if Ascii.eqb c "+" || neg then rest else s in
      match body with
      | EmptyString => inr ErrSyntax
      | _ =>
          match parseDigits body 0 with
          | inr ErrSyntax => inr ErrSyntax
          | inr _ => inr ErrRange
          | inl un =>
              let cutoff := (2 ^ 63)%Z in
              if negb neg && (cutoff <=? Z.of_N un) then inr ErrRange
              else if neg && (cutoff <? Z.of_N un) then inr ErrRange
              else inl (if neg then - Z.of_N un else Z.of_N un)
          end
      end
  end.

(** [fmt.Sprint(id, suffix)]: the decimal form of the integer followed
    by the string, without a space since one operand is a string. *)
Definition Sprint (id : Z) (suffix : string) : string := pretty id +:+ suffix.

(** ** The world: file system, heap of queues, injected failures *)

Definition bytes := list byte.

Global Instance byte_eq_dec : EqDecision byte := Byte.byte_eq_dec.

(** A path is kept in the two parts [filepath.Join] is called with:
    the directory and the name of the entry. *)
Definition path : Type := string * string.
Definition Join (dir name : string) : path := (dir, name).

Definition ptr := nat.

Record queue : Type := mkQueue {
  directory : string;
  notify : bool;        (* the one-slot channel: [true] when a signal is pending *)
  currentId : Z;        (* reader.currentId *)
  counter : Z;          (* writer.counter *)
  length : Z
}.

Definition zeroQueue : queue := mkQueue "" false 0 0 0.

Inductive event : Type :=
  | EvMkdirAll (dir : string) (r : option error)
  | EvReadDir (dir : string) (r : option error)
  | EvTempFile (p : path) (r : option error)
  | EvWrite (p : path) (data : bytes) (r : option error)
  | EvOpen (p : path) (r : option error)
  | EvRemove (p : path) (r : option error)
  | EvRename (old new : path) (r : option error).

Global Instance event_eq_dec : EqDecision event.
Proof. solve_decision. Defined.

(** [faults] is the script of failures the operating system will
    report: each system call consumes one entry, and fails with the
    error found there, if any, without touching the files.  With an
    empty script every call behaves as the file system dictates.
    [trace] records the system calls in the order they were made. *)
Record World : Type := mkWorld {
  files : gmap path bytes;
  queues : list queue;
  faults : list (option error);
  entropy : N;
  trace : list event
}.

Definition M (A : Type) : Type := World -> A * World.

Definition ret {A} (a : A) : M A := fun w => (a, w).

Definition bind {A B} (m : M A) (k : A -> M B) : M B :=
  fun w => let r := m w in k (fst r) (snd r).

Notation "x <- m ;; k" := (bind m (fun x => k))
  (at level 62, m at level 50, right associativity).
Notation "m ;;; k" := (bind m (fun _ => k))
  (at level 62, right associativity).

Definition withFiles (f : gmap path bytes) (w : World) : World :=
  mkWorld f (queues w) (faults w) (entropy w) (trace w).

Definition withQueues (qs : list queue) (w : World) : World :=
  mkWorld (files w) qs (faults w) (entropy w) (trace w).

Definition log (ev : event) : M unit :=
  fun w => (tt, mkWorld (files w) (queues w) (faults w) (entropy w)
                        (app (trace w) [ev])).

(** The failure, if any, the script holds for the next system call. *)
Definition fault : M (option error) :=
  fun w =>
    (default None (head (faults w)),
     mkWorld (files w) (queues w) (tail (faults w)) (entropy w) (trace w)).

Definition getFiles : M (gmap path bytes) := fun w => (files w, w).
Definition setFiles (f : gmap path bytes) : M unit :=
  fun w => (tt, withFiles f w).

(** *** System calls *)

Definition osMkdirAll (dir : string) : M (option error) :=
  f <- fault ;; log (EvMkdirAll dir f) ;;; ret f.

Definition dirNames (dir : string) (fs : gmap path bytes) : list string :=
  (fun kv : path * bytes => snd (fst kv))
    <$> filter (fun kv : path * bytes => fst (fst kv) = dir) (map_to_list fs).

(** [ioutil.ReadDir]: the names of the entries, sorted. *)
Definition osReadDir (dir : string) : M (list string + error) :=
  f <- fault ;; log (EvReadDir dir f) ;;;
  match f with
  | Some e => ret (inr e)
  | None => fs <- getFiles ;; ret (inl (merge_sort String.le (dirNames dir fs)))
  end.

(** The first number from [n] on, within [fuel] tries, for which [taken]
    is false. *)
Fixpoint firstFree (taken : N -> bool) (fuel : nat) (n : N) : option N :=
  match fuel with
  | O => None
  | S fuel' => if taken n then firstFree taken fuel' (N.succ n) else Some n
  end.

Definition tempName (n : N) : string := pretty n +:+ tempSuffix.

Definition tempTries : nat := (100 * 100)%nat.

(** [ioutil.TempFile(dir, "*.temp")]: creates an empty file whose name
    is a number followed by [.temp] and is not in use; gives up with
    an error after 10000 taken names. *)
Definition osTempFile (dir : string) : M (path + error) :=
  f <- fault ;;
  match f with
  | Some e => log (EvTempFile (Join dir "*.temp") (Some e)) ;;; ret (inr e)
  | None =>
      fun w =>
        match firstFree
                (fun n => bool_decide (is_Some (files w !! Join dir (tempName n))))
                tempTries (entropy w) with
        | None => (inr (ErrOS 17), w)
        | Some n =>
            let p := Join dir (tempName n) in
            (inl p, mkWorld (<[p := []]> (files w)) (queues w) (faults w)
                            (N.succ n) (app (trace w) [EvTempFile p None]))
        end
  end.

(** Writing to an open file appends to it. *)
Definition osWrite (p : path) (data : bytes) : M (option error) :=
  f <- fault ;; log (EvWrite p data f) ;;;
  match f with
  | Some e => ret (Some e)
  | None =>
      fs <- getFiles ;;
      setFiles (<[p := app (default [] (fs !! p)) data]> fs) ;;; ret None
  end.

(** What [os.Open] gives: the file and the bytes a reader gets from it. *)
Record handle : Type := mkHandle { hpath : path; hbytes : bytes }.

Definition osOpen (p : path) : M (handle + error) :=
  f <- fault ;;
  fs <- getFiles ;;
  let r := match f with
           | Some e => inr e
           | None =>
               match fs !! p with
               | Some b => inl (mkHandle p b)
               | None => inr ErrNotExist
               end
           end in
  log (EvOpen p (match r with inl _ => None | inr e => Some e end)) ;;;
  ret r.

Definition osRemove (p : path) : M (option error) :=
  f <- fault ;;
  fs <- getFiles ;;
  match f with
  | Some e => log (EvRemove p (Some e)) ;;; ret (Some e)
  | None =>
      match fs !! p with
      | Some _ => setFiles (delete p fs) ;;; log (EvRemove p None) ;;; ret None
      | None => log (EvRemove p (Some ErrNotExist)) ;;; ret (Some ErrNotExist)
      end
  end.

(** [os.Rename] replaces the target when it exists. *)
Definition osRename (old new : path) : M (option error) :=
  f <- fault ;;
  fs <- getFiles ;;
  match f with
  | Some e => log (EvRename old new (Some e)) ;;; ret (Some e)
  | None =>
      match fs !! old with
      | Some b =>
          setFiles (<[new := b]> (delete old fs)) ;;;
          log (EvRename old new None) ;;; ret None
      | None =>
          log (EvRename old new (Some ErrNotExist)) ;;; ret (Some ErrNotExist)
      end
  end.


(** An [io.Reader]: the bytes it yields, and the error that ends the
    stream when it is not the end of the data. *)
Record Reader : Type := mkReader { rbytes : bytes; rerr : option error }.

Definition NewBufferString (s : string) : Reader :=
  mkReader (list_byte_of_string s) None.

Definition handleReader (h : handle) : Reader := mkReader (hbytes h) None.

(** [io.Copy(out, src)] for [out] an open file. *)
Definition ioCopy (out : path) (src : Reader) : M (option error) :=
  werr <- osWrite out (rbytes src) ;;
  match werr with
  | Some e => ret (Some e)
  | None => ret (rerr src)
  end.

(** ** The heap of queue structs *)

Definition getQueue (p : ptr) : M queue :=
  fun w => (default zeroQueue (queues w !! p), w).

Definition setQueue (p : ptr) (q : queue) : M unit :=
  fun w => (tt, withQueues (<[p := q]> (queues w)) w).

Definition newQueue (q : queue) : M ptr :=
  fun w => (List.length (queues w), withQueues (app (queues w) [q]) w).

Definition setNotify (b : bool) (q : queue) : queue :=
  mkQueue (directory q) b (currentId q) (counter q) (length q).
Definition setCurrentId (id : Z) (q : queue) : queue :=
  mkQueue (directory q) (notify q) id (counter q) (length q).
Definition setCounter (c : Z) (q : queue) : queue :=
  mkQueue (directory q) (notify q) (currentId q) c (length q).
Definition setLength (n : Z) (q : queue) : queue :=
  mkQueue (directory q) (notify q) (currentId q) (counter q) n.

(** [atomic.AddInt64(&q.length, delta)] *)
Definition addLength (p : ptr) (delta : Z) : M unit :=
  q <- getQueue p ;; setQueue p (setLength (Int64.add (length q) delta) q).

(** ** queue.go *)

(** The send on the one-slot channel that never blocks: a pending
    signal stays pending. *)
Definition notifyUpdate (p : ptr) : M unit :=
  q <- getQueue p ;; setQueue p (setNotify true q).

Definition attachToQueue (p : ptr) (oldName : path) : M (option error) :=
  q <- getQueue p ;;
  let id := counter q in
  err <- osRename oldName (Join (directory q) (Sprint id dataSuffix)) ;;
  match err with
  | Some e => ret (Some (ErrWrap "rename temp file to queue element" e))
  | None =>
      q' <- getQueue p ;;
      setQueue p (setCounter (Int64.add id 1) q') ;;; ret None
  end.

Definition Attach (p : ptr) (file : path) : M (option error) :=
  err <- attachToQueue p file ;;
  match err with
  | Some e => ret (Some (ErrWrap "dfq: attach to queue" e))
  | None => addLength p 1 ;;; notifyUpdate p ;;; ret None
  end.

(** The handler gets the scratch file by its path and writes to it
    with [osWrite]; closing the file has no effect of its own here. *)
Definition Stream (p : ptr) (handler : path -> M (option error))
  : M (option error) :=
  q <- getQueue p ;;
  r <- osTempFile (directory q) ;;
  match r with
  | inr e => ret (Some (ErrWrap "dfq: put: create temp file" e))
  | inl tmp =>
      err <- handler tmp ;;
      match err with
      | Some e => osRemove tmp ;;; ret (Some e)
      | None =>
          err <- Attach p tmp ;;
          match err with
          | Some e => osRemove tmp ;;; ret (Some e)
          | None => ret None
          end
      end
  end.

Definition Put (p : ptr) (reader : Reader) : M (option error) :=
  Stream p (fun stream =>
    err <- ioCopy stream reader ;;
    match err with
    | Some e => ret (Some (ErrWrap "dfq: put: write temp file" e))
    | None => ret None
    end).

Definition File (p : ptr) : M path :=
  q <- getQueue p ;;
  ret (Join (directory q) (Sprint (currentId q) dataSuffix)).

Definition Peek (p : ptr) : M (handle + error) :=
  q <- getQueue p ;;
  r <- osOpen (Join (directory q) (Sprint (currentId q) dataSuffix)) ;;
  match r with
  | inl f => ret (inl f)
  | inr e =>
      if IsNotExist (Some e) then ret (inr ErrEmptyQueue) else ret (inr e)
  end.

Definition Commit (p : ptr) : M (option error) :=
  q <- getQueue p ;;
  let path := Join (directory q) (Sprint (currentId q) dataSuffix) in
  setQueue p (setCurrentId (Int64.add (currentId q) 1) q) ;;;
  addLength p (-1) ;;;
  notifyUpdate p ;;;
  err <- osRemove path ;;
  if IsNotExist err then ret None else ret err.

Definition Len (p : ptr) : M Z :=
  q <- getQueue p ;; ret (length q).


(** The part of the [Queue] interface that [Steal] uses of its
    argument; [qFile] is the optional [File() string] method the type
    assertion asks for. *)
Record Queue : Type := mkQueueI {
  qPeek : M (handle + error);
  qCommit : M (option error);
  qFile : option (M path)
}.

Definition asQueue (p : ptr) : Queue :=
  mkQueueI (Peek p) (Commit p) (Some (File p)).

(** A queue seen through a type without the [File] method. *)
Definition asPlainQueue (p : ptr) : Queue :=
  mkQueueI (Peek p) (Commit p) None.

(** The handler of the full copy in [Steal]. *)
Definition stealCopy (from : Queue) (out : path) : M (option error) :=
  r <- qPeek from ;;
  match r with
  | inr e => ret (Some e)
  | inl input =>
      err <- ioCopy out (handleReader input) ;;
      match err with
      | Some e => ret (Some e)
      | None => qCommit from
      end
  end.

Definition Steal (p : ptr) (from : Queue) : M (option error) :=
  match qFile from with
  | Some file =>
      f <- file ;;
      err <- Attach p f ;;
      match err with
      | None => qCommit from
      | Some _ => Stream p (stealCopy from)
      end
  | None => Stream p (stealCopy from)
  end.

(** The loop of [synchronizeState] from entry [i] of the listing on;
    the result is the pair [(min, max)] or the error returned. *)
Fixpoint syncLoop (dir : string) (list : list string) (i : nat) (min max : Z)
  : M (Z * Z + error) :=
  match list with
  | [] => ret (inl (min, max))
  | name :: rest =>
      if HasSuffix name dataSuffix then
        match ParseInt (cutSuffix name dataSuffix) with
        | inr e => ret (inr e)
        | inl id =>
            if (i =? 0)%nat then syncLoop dir rest (S i) id id
            else if max <? id then syncLoop dir rest (S i) min id
            else if id <? min then syncLoop dir rest (S i) id max
            else syncLoop dir rest (S i) min max
        end
      else if HasSuffix name tempSuffix then
        err <- osRemove (Join dir name) ;;
        match err with
        | Some e => ret (inr e)
        | None => syncLoop dir rest (S i) min max
        end
      else syncLoop dir rest (S i) min max
  end.

Definition synchronizeState (p : ptr) : M (option error) :=
  q <- getQueue p ;;
  r <- osReadDir (directory q) ;;
  match r with
  | inr e => ret (Some e)
  | inl list =>
      r <- syncLoop (directory q) list 0 0 0 ;;
      match r with
      | inr e => ret (Some e)
      | inl (min, max) =>
          q <- getQueue p ;;
          setQueue p (setLength (Int64.sub max min)
                       (setCounter max (setCurrentId min q))) ;;;
          ret None
      end
  end.

(** [Open] returns the queue together with the error of the scan; only
    a failure to make the directory gives no queue. *)
Definition Open (dir : string) : M (option ptr * option error) :=
  err <- osMkdirAll dir ;;
  match err with
  | Some e => ret (None, Some e)
  | None =>
      p <- newQueue (mkQueue dir false 0 0 0) ;;
      err <- synchronizeState p ;;
      ret (Some p, err)
  end.

Definition GetBytes (peek : M (handle + error)) : M (bytes + error) :=
  r <- peek ;;
  match r with
  | inr e => ret (inr e)
  | inl f => ret (inl (hbytes f))
  end.

Definition GetString (peek : M (handle + error)) : M (string + error) :=
  r <- GetBytes peek ;;
  match r with
  | inr e => ret (inr e)
  | inl data => ret (inl (string_of_list_byte data))
  end.

(** ** What the methods leave behind

    Closed forms of the effects of the system calls and of the methods,
    used to state the equations proved of them below. *)

(** The queue struct [Commit] leaves behind. *)
Definition commitQueue (q : queue) : queue :=
  mkQueue (directory q) true (Int64.add (currentId q) 1) (counter q)
          (Int64.add (length q) (-1)).

(** The queue struct a successful [Attach] leaves behind. *)
Definition attachQueue (q : queue) : queue :=
  mkQueue (directory q) true (currentId q) (Int64.add (counter q) 1)
          (Int64.add (length q) 1).

(** The world with the struct at [p] replaced. *)
Definition putQueue (p : ptr) (q : queue) (w : World) : World :=
  withQueues (<[p := q]> (queues w)) w.

(** The failure the script holds for the next system call. *)
Definition injected (w : World) : option error := default None (head (faults w)).

(** What [os.Remove] reports. *)
Definition removeResult (p : path) (w : World) : option error :=
  match injected w with
  | Some e => Some e
  | None => match files w !! p with Some _ => None | None => Some ErrNotExist end
  end.

(** What [os.Rename] reports. *)
Definition renameResult (old : path) (w : World) : option error :=
  match injected w with
  | Some e => Some e
  | None => match files w !! old with Some _ => None | None => Some ErrNotExist end
  end.

Definition openResult (p : path) (w : World) : handle + error :=
  match injected w with
  | Some e => inr e
  | None =>
      match files w !! p with
      | Some b => inl (mkHandle p b)
      | None => inr ErrNotExist
      end
  end.

(** ** Vocabulary of the specification *)

Definition emptyWorld : World := mkWorld ∅ [] [] 0 [].

(** A world holding the given files and nothing else, in which the
    system calls fail as the script says. *)
Definition worldOf (l : list (path * bytes)) (script : list (option error))
  : World :=
  mkWorld (list_to_map l) [] script 0 [].

Definition withFaults (script : list (option error)) (w : World) : World :=
  mkWorld (files w) (queues w) script (entropy w) (trace w).

Definition queueAt (p : ptr) (w : World) : queue := fst (getQueue p w).

Definition allocated (p : ptr) (w : World) : Prop :=
  (p < List.length (queues w))%nat.

(** The path of the record the reader is at. *)
Definition currentPath (q : queue) : path :=
  Join (directory q) (Sprint (currentId q) dataSuffix).

(** The records present in a directory: the entries that carry the data
    suffix, which is how [synchronizeState] recognises them. *)
Definition records (dir : string) (w : World) : list string :=
  filter (fun name => HasSuffix name dataSuffix = true)
         (dirNames dir (files w)).

(** The ids [synchronizeState] parses out of a listing. *)
Definition dataIds (names : list string) : list Z :=
  omap (fun name =>
          if HasSuffix name dataSuffix then
            match ParseInt (cutSuffix name dataSuffix) with
            | inl id => Some id
            | inr _ => None
            end
          else None) names.

Definition minimum (x : Z) (l : list Z) : Z := foldr Z.min x l.
Definition maximum (x : Z) (l : list Z) : Z := foldr Z.max x l.

(** Running a method [n] times in a row, collecting what it returns. *)
Fixpoint times {A} (n : nat) (m : M A) : M (list A) :=
  match n with
  | O => ret []
  | S n' => a <- m ;; rest <- times n' m ;; ret (a :: rest)
  end.

(** The calls a producer and the consumer make on one queue. *)
Inductive call : Type :=
  | CallPut (r : Reader)
  | CallPeek
  | CallCommit.

Definition exec (p : ptr) (c : call) : M unit :=
  match c with
  | CallPut r => Put p r ;;; ret tt
  | CallPeek => Peek p ;;; ret tt
  | CallCommit => Commit p ;;; ret tt
  end.

Fixpoint execAll (p : ptr) (cs : list call) : M unit :=
  match cs with
  | [] => ret tt
  | c :: rest => exec p c ;;; execAll p rest
  end.

Definition succeeds {A} (r : A + error) : Prop :=
  match r with inl _ => True | inr _ => False end.

(** A sequence of calls in which every [Commit] comes when [Peek]
    would succeed. *)
Fixpoint guarded (p : ptr) (cs : list call) (w : World) : Prop :=
  match cs with
  | [] => True
  | c :: rest =>
      (c = CallCommit -> succeeds (fst (Peek p w)))
      /\ guarded p rest (snd (exec p c w))
  end.

(** The Len invariant of the specification, at one state. *)
Definition LenInvariant (p : ptr) (w : World) : Prop :=
  fst (Len p w)
    = Z.of_nat (List.length (records (directory (queueAt p w)) w))
  /\ (fst (Len p w) = 0 <-> fst (Peek p w) = inr ErrEmptyQueue).

(** What holds of a queue that was opened on an empty directory and
    used with guarded commits, after at most [n] publications. *)
Definition Consistent (p : ptr) (n : Z) (w : World) : Prop :=
  allocated p w
  /\ faults w = []
  /\ 0 <= currentId (queueAt p w) <= counter (queueAt p w)
  /\ counter (queueAt p w) <= n
  /\ length (queueAt p w) = counter (queueAt p w) - currentId (queueAt p w)
  /\ forall name,
       is_Some (files w !! Join (directory (queueAt p w)) name)
       <-> exists id,
             currentId (queueAt p w) <= id < counter (queueAt p w)
             /\ name = Sprint id dataSuffix.

(** ** States used as examples *)

(** A directory left by a crash: two records and the scratch file of a
    publication that did not complete.  [ioutil.ReadDir] lists
    [3.temp] first. *)
Definition crashedWorld : World :=
  worldOf [ (Join "q" "3.temp", list_byte_of_string "zz");
            (Join "q" "5.data", list_byte_of_string "a");
            (Join "q" "7.data", list_byte_of_string "bb") ] [].

Definition oneRecordWorld : World :=
  worldOf [ (Join "q" "5.data", list_byte_of_string "a") ] [].

Definition twoRecordsWorld : World :=
  worldOf [ (Join "q" "0.data", list_byte_of_string "a");
            (Join "q" "1.data", list_byte_of_string "b") ] [].

(** Two queues on different volumes, the first holding one record. *)
Definition twoQueues : World :=
  snd ((Open "a" ;;; Open "b" ;;; Put 0%nat (NewBufferString "hello"))
         emptyWorld).

(** errno 18, EXDEV: a rename across volumes. *)
Definition EXDEV : error := ErrOS 18.
(** errno 5, EIO. *)
Definition EIO : error := ErrOS 5.

(** A freshly opened queue holding one record. *)
Definition oneInQueue : World :=
  snd ((Open "q" ;;; Put 0%nat (NewBufferString "x")) emptyWorld).

(** A freshly opened queue on an empty directory. *)
Definition freshQueue : World := snd (Open "q" emptyWorld).

(** A handler that writes one byte and then fails. *)
Definition failingHandler (out : path) : M (option error) :=
  osWrite out (list_byte_of_string "x") ;;; ret (Some (ErrUser "stop")).

(** ** The queue as a list

    [Holds p pending w]: the queue at [p] holds exactly the payloads
    [pending], oldest first: they are the files of the ids from
    readCursor on, nothing else is in the directory, and the three
    counters agree with that. *)
Definition Holds (p : ptr) (pending : list bytes) (w : World) : Prop :=
  allocated p w
  /\ faults w = []
  /\ 0 <= currentId (queueAt p w)
  /\ counter (queueAt p w)
     = currentId (queueAt p w) + Z.of_nat (List.length pending)
  /\ counter (queueAt p w) <= Int64.max
  /\ length (queueAt p w) = Z.of_nat (List.length pending)
  /\ forall name b,
       files w !! Join (directory (queueAt p w)) name = Some b
       <-> exists i : nat,
             pending !! i = Some b
             /\ name = Sprint (currentId (queueAt p w) + Z.of_nat i)
                              dataSuffix.

(** What a call does to the list of payloads. *)
Definition listExec (c : call) (pending : list bytes) : list bytes :=
  match c with
  | CallPut r =>
      match rerr r with
      | None => app pending [rbytes r]
      | Some _ => pending
      end
  | CallPeek => pending
  | CallCommit => tail pending
  end.

Definition listExecAll (cs : list call) (pending : list bytes) : list bytes :=
  foldl (fun l c => listExec c l) pending cs.

(** What [GetBytes] gives on a queue holding [pending]. *)
Definition listFront (pending : list bytes) : bytes + error :=
  match pending with
  | [] => inr ErrEmptyQueue
  | b :: _ => inl b
  end.


(** A handler that writes one byte and returns no error. *)
Definition writingHandler (out : path) : M (option error) :=
  osWrite out (list_byte_of_string "x").


(** The entries [synchronizeState] removes: those with the scratch
    suffix that do not have the data suffix. *)
Definition isScratch (name : string) : bool :=
  negb (HasSuffix name dataSuffix) && HasSuffix name tempSuffix.

(** The world [Open] hands to [synchronizeState], and the one the loop
    of the scan starts in, when the system fails neither call. *)
Definition afterMkdir (dir : string) (w : World) : World :=
  mkWorld (files w) (app (queues w) [mkQueue dir false 0 0 0])
          (tail (faults w)) (entropy w) (app (trace w) [EvMkdirAll dir None]).

Definition afterReadDir (dir : string) (w : World) : World :=
  mkWorld (files w) (queues w) (tail (faults w)) (entropy w)
          (app (trace w) [EvReadDir dir None]).


(** * Facts *)

Module Int64Facts.

Lemma wrap_small z : Int64.in_range z -> Int64.wrap z = z.
Proof.
  unfold Int64.in_range, Int64.wrap, Int64.min, Int64.max. intros Hz.
  rewrite Z.mod_small by lia. lia.
Qed.

Lemma wrap_in_range z : Int64.in_range (Int64.wrap z).
Proof.
  unfold Int64.in_range, Int64.wrap, Int64.min, Int64.max.
  pose proof (Z.mod_pos_bound (z + 2 ^ 63) (2 ^ 64)). lia.
Qed.

Lemma add_small a b : Int64.in_range (a + b) -> Int64.add a b = a + b.
Proof. apply wrap_small. Qed.

Lemma sub_small a b : Int64.in_range (a - b) -> Int64.sub a b = a - b.
Proof. apply wrap_small. Qed.

End Int64Facts.

(** ** The recovery scan *)

(** C1.  The specification has [Open] set readCursor to the least id
    among the record files whatever else the listing holds.  On a
    directory with records 5 and 7 and the scratch file [3.temp],
    which sorts first, the scan of the code ends with readCursor 0:
    the test [i == 0] is on the position in the listing and the first
    entry is not a record.  [Peek] then reports an empty queue. *)
Theorem Open_scratch_first_cursor :
  let r := Open "q" crashedWorld in
  fst r = (Some 0%nat, None)
  /\ fst (osReadDir "q" crashedWorld) = inl ["3.temp"; "5.data"; "7.data"]
  /\ dataIds ["3.temp"; "5.data"; "7.data"] = [5; 7]
  /\ currentId (queueAt 0%nat (snd r)) = 0
  /\ counter (queueAt 0%nat (snd r)) = 7
  /\ fst (Peek 0%nat (snd r)) = inr ErrEmptyQueue
  /\ merge_sort String.le (records "q" (snd r)) = ["5.data"; "7.data"].
Proof. vm_compute. repeat split. Qed.

(** C2.  The specification has [Open] set
    [length = writeCounter - readCursor + 1] when a record was found.
    On a directory holding the one record [5.data] the code ends
    with both counters at 5 and with length 0, although [Peek]
    delivers the record: the scan stores [max - min]. *)
Theorem Open_one_record_length :
  let r := Open "q" oneRecordWorld in
  let q := queueAt 0%nat (snd r) in
  fst r = (Some 0%nat, None)
  /\ currentId q = 5
  /\ counter q = 5
  /\ fst (Len 0%nat (snd r)) = 0
  /\ counter q - currentId q + 1 = 1
  /\ List.length (records "q" (snd r)) = 1%nat
  /\ fst (GetString (Peek 0%nat) (snd r)) = inl "a".
Proof. vm_compute. repeat split. Qed.

(** C3.  The specification has every publication take an id above
    those of the records already on disk.  After reopening a
    directory with records 0 and 1, the next [Put] is renamed to
    [1.data]: the scan leaves the writer's counter at the greatest id
    found, and [attachToQueue] uses the counter as the id to assign.
    The record that was there is overwritten. *)
Theorem Put_after_reopen_overwrites :
  let opened := snd (Open "q" twoRecordsWorld) in
  let r := Put 0%nat (NewBufferString "c") opened in
  counter (queueAt 0%nat opened) = 1
  /\ files opened !! Join "q" "1.data" = Some (list_byte_of_string "b")
  /\ fst r = None
  /\ last (trace (snd r))
     = Some (EvRename (Join "q" "0.temp") (Join "q" "1.data") None)
  /\ files (snd r) !! Join "q" "1.data" = Some (list_byte_of_string "c")
  /\ files (snd r) !! Join "q" "2.data" = None
  /\ List.length (records "q" (snd r)) = 2%nat
  /\ fst (Len 0%nat (snd r)) = 2.
Proof. vm_compute. repeat split. Qed.

(** ** Steal *)

(** C4.  The specification has [Steal] remove the source record only
    once the destination holds it, on both paths.  Here the rename of
    the fast path fails, the two directories being on different
    volumes, and the copy takes over: its handler commits the source,
    which removes [a/0.data], before [Stream] attaches the copy.  When
    that attach fails too, the copy is deleted and the record is in
    neither queue. *)
Theorem Steal_fallback_commits_first :
  let before := List.length (trace twoQueues) in
  let r := Steal 1%nat (asQueue 0%nat) (withFaults [Some EXDEV] twoQueues) in
  let lost :=
    Steal 1%nat (asQueue 0%nat)
      (withFaults [Some EXDEV; None; None; None; None; Some EIO] twoQueues) in
  files twoQueues !! Join "a" "0.data" = Some (list_byte_of_string "hello")
  /\ drop before (trace (snd r))
     = [ EvRename (Join "a" "0.data") (Join "b" "0.data") (Some EXDEV);
         EvTempFile (Join "b" "1.temp") None;
         EvOpen (Join "a" "0.data") None;
         EvWrite (Join "b" "1.temp") (list_byte_of_string "hello") None;
         EvRemove (Join "a" "0.data") None;
         EvRename (Join "b" "1.temp") (Join "b" "0.data") None ]
  /\ drop before (trace (snd lost))
     = [ EvRename (Join "a" "0.data") (Join "b" "0.data") (Some EXDEV);
         EvTempFile (Join "b" "1.temp") None;
         EvOpen (Join "a" "0.data") None;
         EvWrite (Join "b" "1.temp") (list_byte_of_string "hello") None;
         EvRemove (Join "a" "0.data") None;
         EvRename (Join "b" "1.temp") (Join "b" "0.data") (Some EIO);
         EvRemove (Join "b" "1.temp") None ]
  /\ fst lost
     = Some (ErrWrap "dfq: attach to queue"
               (ErrWrap "rename temp file to queue element" EIO))
  /\ files (snd lost) = ∅
  /\ currentId (queueAt 0%nat (snd lost)) = 1
  /\ fst (Len 0%nat (snd lost)) = 0
  /\ fst (Len 1%nat (snd lost)) = 0.
Proof. vm_compute. repeat split. Qed.

(** The same order is seen when the source does not offer [File]. *)
Lemma Steal_plain_source_commits_first :
  drop (List.length (trace twoQueues))
       (trace (snd (Steal 1%nat (asPlainQueue 0%nat) twoQueues)))
  = [ EvTempFile (Join "b" "1.temp") None;
      EvOpen (Join "a" "0.data") None;
      EvWrite (Join "b" "1.temp") (list_byte_of_string "hello") None;
      EvRemove (Join "a" "0.data") None;
      EvRename (Join "b" "1.temp") (Join "b" "0.data") None ].
Proof. vm_compute. reflexivity. Qed.

(** On the fast path the source is committed after the rename. *)
Lemma Steal_fast_path_order :
  drop (List.length (trace twoQueues))
       (trace (snd (Steal 1%nat (asQueue 0%nat) twoQueues)))
  = [ EvRename (Join "a" "0.data") (Join "b" "0.data") None;
      EvRemove (Join "a" "0.data") (Some ErrNotExist) ].
Proof. vm_compute. reflexivity. Qed.

(** ** The scenario of the specification *)

(** C8.  On a freshly opened empty queue: two puts give length 2;
    [Peek] gives the first payload and leaves the length at 2; after
    [Commit] the length is 1 and [Peek] gives the second payload;
    after a second [Commit], [Peek] reports the empty queue. *)
Theorem scenario_put_peek_commit :
  let run :=
    (o <- Open "q" ;;
     let p := default 0%nat (fst o) in
     len0 <- Len p ;;
     e1 <- Put p (NewBufferString "x") ;;
     e2 <- Put p (NewBufferString "y") ;;
     len2 <- Len p ;;
     first <- GetString (Peek p) ;;
     again <- GetString (Peek p) ;;
     len2' <- Len p ;;
     c1 <- Commit p ;;
     len1 <- Len p ;;
     second <- GetString (Peek p) ;;
     c2 <- Commit p ;;
     third <- Peek p ;;
     ret (snd o, len0, (e1, e2), len2, (first, again), len2',
          c1, len1, second, c2, third)) in
  fst (run emptyWorld)
  = (None, 0, (None, None), 2, (inl "x", inl "x"), 2,
     None, 1, inl "y", None, inr ErrEmptyQueue).
Proof. vm_compute. reflexivity. Qed.

(** ** The monad, the heap and the system calls *)

Lemma bind_eq {A B} (m : M A) (k : A -> M B) w :
  bind m k w = k (fst (m w)) (snd (m w)).
Proof. reflexivity. Qed.

Lemma ret_eq {A} (a : A) w : ret a w = (a, w).
Proof. reflexivity. Qed.

Lemma getQueue_eq p w : getQueue p w = (queueAt p w, w).
Proof. reflexivity. Qed.

Lemma setQueue_eq p q w : setQueue p q w = (tt, putQueue p q w).
Proof. reflexivity. Qed.

Lemma addLength_eq p d w :
  addLength p d w
  = (tt, putQueue p (setLength (Int64.add (length (queueAt p w)) d)
                               (queueAt p w)) w).
Proof. reflexivity. Qed.

Lemma notifyUpdate_eq p w :
  notifyUpdate p w = (tt, putQueue p (setNotify true (queueAt p w)) w).
Proof. reflexivity. Qed.

Ltac mred :=
  repeat (rewrite ?bind_eq, ?ret_eq, ?getQueue_eq, ?setQueue_eq,
            ?addLength_eq, ?notifyUpdate_eq; cbn [fst snd]).

Lemma queueAt_putQueue p q w : allocated p w -> queueAt p (putQueue p q w) = q.
Proof.
  intros Hp. unfold queueAt, getQueue, putQueue, withQueues. simpl.
  by rewrite list_lookup_insert_eq.
Qed.

Lemma putQueue_putQueue p q q' w :
  putQueue p q' (putQueue p q w) = putQueue p q' w.
Proof.
  unfold putQueue, withQueues. simpl. by rewrite list_insert_insert_eq.
Qed.

Lemma allocated_putQueue p p' q w :
  allocated p w -> allocated p (putQueue p' q w).
Proof.
  unfold allocated, putQueue, withQueues. simpl. by rewrite length_insert.
Qed.

Lemma osRemove_eq p w :
  osRemove p w
  = (removeResult p w,
     mkWorld (match injected w with Some _ => files w | None => delete p (files w) end)
             (queues w) (tail (faults w)) (entropy w)
             (app (trace w) [EvRemove p (removeResult p w)])).
Proof.
  unfold osRemove, removeResult, injected, bind, ret, log, fault, getFiles,
    setFiles, withFiles. simpl.
  destruct (default None (head (faults w))); simpl; [reflexivity|].
  destruct (files w !! p) eqn:Hp; simpl; [reflexivity|].
  by rewrite delete_id.
Qed.

Lemma osRename_eq old new w :
  osRename old new w
  = (renameResult old w,
     mkWorld (match injected w, files w !! old with
              | None, Some b => <[new := b]> (delete old (files w))
              | _, _ => files w
              end)
             (queues w) (tail (faults w)) (entropy w)
             (app (trace w) [EvRename old new (renameResult old w)])).
Proof.
  unfold osRename, renameResult, injected, bind, ret, log, fault, getFiles,
    setFiles, withFiles. simpl.
  destruct (default None (head (faults w))); simpl; [reflexivity|].
  destruct (files w !! old); reflexivity.
Qed.

Lemma osOpen_eq p w :
  osOpen p w
  = (openResult p w,
     mkWorld (files w) (queues w) (tail (faults w)) (entropy w)
             (app (trace w)
                [EvOpen p (match openResult p w with
                           | inl _ => None
                           | inr e => Some e
                           end)])).
Proof. reflexivity. Qed.

Lemma osWrite_eq p data w :
  osWrite p data w
  = (injected w,
     mkWorld (match injected w with
              | Some _ => files w
              | None => <[p := app (default [] (files w !! p)) data]> (files w)
              end)
             (queues w) (tail (faults w)) (entropy w)
             (app (trace w) [EvWrite p data (injected w)])).
Proof.
  unfold osWrite, injected, bind, ret, log, fault, getFiles, setFiles,
    withFiles. simpl.
  destruct (default None (head (faults w))); reflexivity.
Qed.

Lemma osRemove_putQueue path p q w :
  osRemove path (putQueue p q w)
  = (fst (osRemove path w), putQueue p q (snd (osRemove path w))).
Proof. rewrite !osRemove_eq. reflexivity. Qed.

Lemma osRename_putQueue old new p q w :
  osRename old new (putQueue p q w)
  = (fst (osRename old new w), putQueue p q (snd (osRename old new w))).
Proof. rewrite !osRename_eq. reflexivity. Qed.

(** ** Peek *)

Lemma Peek_eq p w :
  Peek p w
  = (match openResult (currentPath (queueAt p w)) w with
     | inl f => inl f
     | inr e => if IsNotExist (Some e) then inr ErrEmptyQueue else inr e
     end,
     snd (osOpen (currentPath (queueAt p w)) w)).
Proof.
  unfold Peek, currentPath. mred.
  change (fst (osOpen ?x w)) with (openResult x w).
  destruct (openResult _ w) as [f|e]; [reflexivity|].
  destruct (IsNotExist (Some e)); reflexivity.
Qed.

Lemma Peek_frame p w :
  queues (snd (Peek p w)) = queues w /\ files (snd (Peek p w)) = files w.
Proof. rewrite Peek_eq, osOpen_eq. split; reflexivity. Qed.

Lemma times_Peek_frame n p : forall w,
  queues (snd (times n (Peek p) w)) = queues w
  /\ files (snd (times n (Peek p) w)) = files w.
Proof.
  induction n as [|n IH]; intros w; [split; reflexivity|].
  cbn [times]. mred.
  destruct (IH (snd (Peek p w))) as [Hq Hf].
  destruct (Peek_frame p w) as [Hq' Hf'].
  rewrite Hq, Hf. auto.
Qed.

Lemma Peek_success_handle p w h :
  fst (Peek p w) = inl h ->
  files w !! currentPath (queueAt p w) = Some (hbytes h)
  /\ hpath h = currentPath (queueAt p w).
Proof.
  rewrite Peek_eq. cbn [fst]. unfold openResult.
  destruct (injected w) as [e|].
  - destruct (IsNotExist (Some e)); discriminate.
  - destruct (files w !! _) as [b|]; [|discriminate].
    intros [= <-]. auto.
Qed.

Lemma times_Peek_handles n p : forall w h,
  inl h ∈ fst (times n (Peek p) w) ->
  files w !! currentPath (queueAt p w) = Some (hbytes h)
  /\ hpath h = currentPath (queueAt p w).
Proof.
  induction n as [|n IH]; intros w h.
  - cbn. intros Hin. by apply elem_of_nil in Hin.
  - cbn [times]. mred. intros Hin. apply elem_of_cons in Hin as [Heq|Hin].
    + by apply Peek_success_handle.
    + apply IH in Hin. destruct (Peek_frame p w) as [Hq Hf].
      unfold queueAt, getQueue in *. cbn [fst] in *.
      by rewrite Hq, Hf in Hin.
Qed.

(** C9.  However many times [Peek] is called in a row, whether it
    succeeds or fails, the queue structs (readCursor, writeCounter,
    length and the pending signal) and the files are as before; and
    any two of the calls that succeed return handles on the same file
    with the same bytes, those of the record at readCursor. *)
Theorem Peek_changes_nothing (n : nat) (p : ptr) (w : World) :
  let r := times n (Peek p) w in
  queues (snd r) = queues w
  /\ files (snd r) = files w
  /\ List.length (fst r) = n
  /\ (forall h1 h2,
        inl h1 ∈ fst r -> inl h2 ∈ fst r ->
        hpath h1 = hpath h2 /\ hbytes h1 = hbytes h2
        /\ files w !! currentPath (queueAt p w) = Some (hbytes h1)).
Proof.
  cbv zeta. destruct (times_Peek_frame n p w) as [Hq Hf].
  split; [exact Hq|]. split; [exact Hf|]. split.
  - clear. revert w. induction n as [|n IH]; intros w; [reflexivity|].
    cbn [times]. mred. cbn [List.length]. by rewrite IH.
  - intros h1 h2 Hin1 Hin2.
    apply times_Peek_handles in Hin1 as [Hb1 Hp1].
    apply times_Peek_handles in Hin2 as [Hb2 Hp2].
    split; [congruence|]. split; [congruence|exact Hb1].
Qed.

(** ** Commit *)

Lemma Commit_eq p w :
  allocated p w ->
  Commit p w
  = (let r := osRemove (currentPath (queueAt p w)) w in
     (if IsNotExist (fst r) then None else fst r,
      putQueue p (commitQueue (queueAt p w)) (snd r))).
Proof.
  intros Hp. unfold Commit, currentPath. mred.
  rewrite !queueAt_putQueue by auto using allocated_putQueue.
  rewrite !putQueue_putQueue, osRemove_putQueue. cbn [fst snd]. cbv zeta.
  destruct (IsNotExist _); reflexivity.
Qed.

Lemma Commit_queue p w :
  allocated p w ->
  queueAt p (snd (Commit p w)) = commitQueue (queueAt p w).
Proof.
  intros Hp. rewrite Commit_eq by done. cbn [snd].
  apply queueAt_putQueue. rewrite osRemove_eq. exact Hp.
Qed.

Lemma Commit_files p w :
  allocated p w ->
  files (snd (Commit p w))
  = match injected w with
    | Some _ => files w
    | None => delete (currentPath (queueAt p w)) (files w)
    end.
Proof. intros Hp. rewrite Commit_eq, osRemove_eq by done. reflexivity. Qed.

Lemma Commit_result p w :
  allocated p w ->
  fst (Commit p w)
  = match injected w with
    | Some ErrNotExist => None
    | Some e => Some e
    | None => None
    end.
Proof.
  intros Hp. rewrite Commit_eq, osRemove_eq by done. cbn [fst snd].
  unfold removeResult.
  destruct (injected w) as [e|].
  - destruct e; reflexivity.
  - destruct (files w !! _); reflexivity.
Qed.

(** C6.  Whatever the removal of the record's file reports, [Commit]
    leaves readCursor one further, in 64-bit arithmetic, which is the
    integer successor below the greatest int64.  When the file is not
    there [Commit] returns no error; when the removal succeeds the
    file is gone and no error is returned; when the system reports
    not-exist the error is swallowed; any other error the system
    reports is returned as it is, and the files are untouched. *)
Theorem Commit_fail_forward (p : ptr) (w : World) :
  allocated p w ->
  let q := queueAt p w in
  let r := Commit p w in
  currentId (queueAt p (snd r)) = Int64.add (currentId q) 1
  /\ (Int64.in_range (currentId q + 1) ->
      currentId (queueAt p (snd r)) = currentId q + 1)
  /\ match injected w with
     | None =>
         fst r = None /\ files (snd r) !! currentPath q = None
         /\ (files w !! currentPath q = None -> files (snd r) = files w)
     | Some ErrNotExist => fst r = None
     | Some e => fst r = Some e /\ files (snd r) = files w
     end.
Proof.
  intros Hp q r. subst q r.
  rewrite Commit_queue, Commit_result, Commit_files by done.
  split; [reflexivity|]. split.
  - intros Hr. cbn [commitQueue currentId]. by apply Int64Facts.add_small.
  - destruct (injected w) as [e|].
    + destruct e; auto.
    + split; [reflexivity|]. split; [apply lookup_delete_eq|].
      intros Hnone. by apply delete_id.
Qed.

Lemma Commit_fail_forward_witness :
  allocated 0%nat (withFaults [Some EIO] oneInQueue)
  /\ (let w := withFaults [Some EIO] oneInQueue in
      let r := Commit 0%nat w in
      currentId (queueAt 0%nat (snd r)) = 1
      /\ fst r = Some EIO /\ files (snd r) = files w).
Proof.
  split; [vm_compute; lia|].
  pose proof (Commit_fail_forward 0%nat (withFaults [Some EIO] oneInQueue))
    as H.
  destruct H as (H1 & H2 & H3); [vm_compute; lia|].
  split; [|exact H3].
  rewrite H1. reflexivity.
Defined.

Lemma times_Commit_empty p n : forall w,
  allocated p w ->
  faults w = [] ->
  (forall k, 0 <= k < Z.of_nat n ->
     files w !! Join (directory (queueAt p w))
                     (Sprint (currentId (queueAt p w) + k) dataSuffix) = None) ->
  Int64.in_range (currentId (queueAt p w)) ->
  Int64.in_range (currentId (queueAt p w) + Z.of_nat n) ->
  Int64.in_range (length (queueAt p w)) ->
  Int64.in_range (length (queueAt p w) - Z.of_nat n) ->
  let r := times n (Commit p) w in
  fst r = replicate n None
  /\ allocated p (snd r)
  /\ directory (queueAt p (snd r)) = directory (queueAt p w)
  /\ currentId (queueAt p (snd r)) = currentId (queueAt p w) + Z.of_nat n
  /\ length (queueAt p (snd r)) = length (queueAt p w) - Z.of_nat n
  /\ counter (queueAt p (snd r)) = counter (queueAt p w)
  /\ files (snd r) = files w.
Proof.
  induction n as [|n IH]; intros w Hp Hf Hnone Hc Hcn Hl Hln.
  - cbn. repeat split; auto; lia.
  - cbn [times]. mred.
    assert (Hinj : injected w = None) by (unfold injected; by rewrite Hf).
    assert (Hfiles : files (snd (Commit p w)) = files w).
    { rewrite Commit_files, Hinj by done. apply delete_id.
      specialize (Hnone 0). rewrite Z.add_0_r in Hnone. apply Hnone. lia. }
    assert (Hp' : allocated p (snd (Commit p w))).
    { rewrite Commit_eq, osRemove_eq by done. cbn [snd].
      by apply allocated_putQueue. }
    assert (Hf' : faults (snd (Commit p w)) = []).
    { rewrite Commit_eq, osRemove_eq by done. cbn. by rewrite Hf. }
    pose proof (Commit_queue p w Hp) as Hq.
    assert (Hcur : currentId (queueAt p (snd (Commit p w)))
                   = currentId (queueAt p w) + 1).
    { rewrite Hq. cbn [commitQueue currentId]. apply Int64Facts.add_small.
      unfold Int64.in_range, Int64.min, Int64.max in *. lia. }
    assert (Hlen : length (queueAt p (snd (Commit p w)))
                   = length (queueAt p w) - 1).
    { rewrite Hq. cbn [commitQueue length].
      rewrite Int64Facts.add_small; [lia|].
      unfold Int64.in_range, Int64.min, Int64.max in *. lia. }
    assert (Hdir : directory (queueAt p (snd (Commit p w)))
                   = directory (queueAt p w)) by (by rewrite Hq).
    assert (Hcnt : counter (queueAt p (snd (Commit p w)))
                   = counter (queueAt p w)) by (by rewrite Hq).
    destruct (IH (snd (Commit p w))) as (E1 & E2 & E3 & E4 & E5 & E6 & E7);
      auto.
    + intros k Hk. rewrite Hfiles, Hdir, Hcur.
      replace (currentId (queueAt p w) + 1 + k)
        with (currentId (queueAt p w) + (k + 1)) by lia.
      apply Hnone. lia.
    + rewrite Hcur. unfold Int64.in_range, Int64.min, Int64.max in *. lia.
    + rewrite Hcur. unfold Int64.in_range, Int64.min, Int64.max in *. lia.
    + rewrite Hlen. unfold Int64.in_range, Int64.min, Int64.max in *. lia.
    + rewrite Hlen. unfold Int64.in_range, Int64.min, Int64.max in *. lia.
    + rewrite E1, E3, E4, E5, E6, E7, Hcur, Hlen, Hcnt, Hdir, Hfiles.
      rewrite Commit_result, Hinj by done.
      repeat split; auto; lia.
Qed.

(** C10.  [Commit] asks nothing of the queue.  When no record file is
    at readCursor, nor at the ids that follow it, and the system
    fails no call, [n] commits in a row all return no error, advance
    readCursor by [n] and take [n] off the length, while writeCounter
    and the files stay as they are: from an empty queue the length
    goes below zero and readCursor passes writeCounter + 1. *)
Theorem Commit_unguarded (p : ptr) (n : nat) (w : World) :
  allocated p w ->
  faults w = [] ->
  (forall k, 0 <= k < Z.of_nat n ->
     files w !! Join (directory (queueAt p w))
                     (Sprint (currentId (queueAt p w) + k) dataSuffix) = None) ->
  Int64.in_range (currentId (queueAt p w)) ->
  Int64.in_range (currentId (queueAt p w) + Z.of_nat n) ->
  Int64.in_range (length (queueAt p w)) ->
  Int64.in_range (length (queueAt p w) - Z.of_nat n) ->
  let r := times n (Commit p) w in
  fst r = replicate n None
  /\ currentId (queueAt p (snd r)) = currentId (queueAt p w) + Z.of_nat n
  /\ fst (Len p (snd r)) = length (queueAt p w) - Z.of_nat n
  /\ counter (queueAt p (snd r)) = counter (queueAt p w)
  /\ files (snd r) = files w.
Proof.
  intros Hp Hf Hnone Hc Hcn Hl Hln.
  destruct (times_Commit_empty p n w) as (E1 & E2 & E3 & E4 & E5 & E6 & E7);
    [assumption..|].
  cbv zeta. unfold Len. mred. auto.
Qed.

Lemma Commit_unguarded_witness :
  let r := times 3 (Commit 0%nat) freshQueue in
  fst (Len 0%nat freshQueue) = 0
  /\ records "q" freshQueue = []
  /\ fst r = [None; None; None]
  /\ fst (Len 0%nat (snd r)) = -3
  /\ currentId (queueAt 0%nat (snd r)) = 3
  /\ counter (queueAt 0%nat (snd r)) + 1 = 1.
Proof.
  pose proof (Commit_unguarded 0%nat 3 freshQueue) as H.
  destruct H as (E1 & E2 & E3 & E4 & E5).
  - vm_compute. lia.
  - reflexivity.
  - intros k Hk. reflexivity.
  - vm_compute. split; discriminate.
  - vm_compute. split; discriminate.
  - vm_compute. split; discriminate.
  - vm_compute. split; discriminate.
  - cbv zeta. rewrite E1, E2, E3, E4. repeat split.
Defined.

(** ** Names *)

Lemma length_append (a b : string) :
  String.length (a +:+ b) = (String.length a + String.length b)%nat.
Proof. induction a as [|c a IH]; simpl; [reflexivity|]. by f_equal. Qed.

Lemma substring_append_tail (a b : string) :
  substring (String.length a) (String.length b) (a +:+ b) = b.
Proof.
  induction a as [|c a IH]; simpl; [|exact IH].
  induction b as [|c b IHb]; simpl; [reflexivity|]. by f_equal.
Qed.

Lemma HasSuffix_append (a suffix suffix' : string) :
  String.length suffix = String.length suffix' ->
  HasSuffix (a +:+ suffix') suffix = bool_decide (suffix' = suffix).
Proof.
  intros Hlen. unfold HasSuffix. rewrite length_append, Hlen.
  replace (String.length a + String.length suffix' - String.length suffix')%nat
    with (String.length a) by lia.
  rewrite substring_append_tail.
  replace (String.length suffix' <=? String.length a + String.length suffix')%nat
    with true by (symmetry; apply Nat.leb_le; lia).
  cbn [andb]. case_bool_decide as Hd.
  - by apply String.eqb_eq.
  - by apply String.eqb_neq.
Qed.

Lemma HasSuffix_data id : HasSuffix (Sprint id dataSuffix) dataSuffix = true.
Proof. unfold Sprint. by rewrite HasSuffix_append. Qed.

Lemma HasSuffix_temp n : HasSuffix (tempName n) dataSuffix = false.
Proof. unfold tempName. by rewrite HasSuffix_append. Qed.

Lemma tempName_not_data n id : tempName n <> Sprint id dataSuffix.
Proof.
  intros Heq. pose proof (HasSuffix_temp n) as Ht.
  rewrite Heq, HasSuffix_data in Ht. discriminate.
Qed.

Lemma append_cancel_r (a b s : string) : a +:+ s = b +:+ s -> a = b.
Proof.
  revert b. induction a as [|c a IH]; intros [|d b] Heq.
  - reflexivity.
  - apply (f_equal String.length) in Heq.
    rewrite !length_append in Heq. simpl in Heq. lia.
  - apply (f_equal String.length) in Heq.
    rewrite !length_append in Heq. simpl in Heq. lia.
  - simpl in Heq. injection Heq as -> Heq. f_equal. by apply IH.
Qed.

Lemma Sprint_inj id id' suffix :
  Sprint id suffix = Sprint id' suffix -> id = id'.
Proof.
  unfold Sprint. intros Heq. apply append_cancel_r in Heq.
  by apply (inj pretty) in Heq.
Qed.

(** ** Stream *)

Lemma firstFree_free taken fuel : forall n m,
  firstFree taken fuel n = Some m -> taken m = false.
Proof.
  induction fuel as [|fuel IH]; intros n m; cbn; [discriminate|].
  destruct (taken n) eqn:Hn; [apply IH|]. by intros [= <-].
Qed.

Lemma osTempFile_inl dir w tmp w1 :
  osTempFile dir w = (inl tmp, w1) ->
  exists n,
    tmp = Join dir (tempName n)
    /\ files w !! tmp = None
    /\ injected w = None
    /\ w1 = mkWorld (<[tmp := []]> (files w)) (queues w) (tail (faults w))
                    (N.succ n) (app (trace w) [EvTempFile tmp None]).
Proof.
  unfold osTempFile. rewrite bind_eq. unfold fault. cbn [fst snd].
  fold (injected w). destruct (injected w) as [e|]; [discriminate|].
  destruct (firstFree _ _ _) as [n|] eqn:Hfree; [|discriminate].
  cbn [entropy files queues faults trace] in *.
  intros [= <- <-]. exists n. repeat split.
  apply firstFree_free in Hfree. apply bool_decide_eq_false in Hfree.
  by apply eq_None_not_Some.
Qed.

Lemma Stream_handler_fails p handler w tmp w1 e w2 :
  osTempFile (directory (queueAt p w)) w = (inl tmp, w1) ->
  handler tmp w1 = (Some e, w2) ->
  Stream p handler w = (Some e, snd (osRemove tmp w2)).
Proof.
  intros Htmp Hh. unfold Stream. mred. rewrite Htmp. cbn [fst snd].
  mred. rewrite Hh. cbn [fst snd]. mred. reflexivity.
Qed.

(** C5.  When the scratch file was made and the handler returns an
    error, [Stream] returns that error and its last act is to ask for
    the removal of the scratch file.  Apart from what the handler did
    itself, the queue structs are as before the call, so that a
    handler that leaves them alone leaves readCursor, writeCounter
    and length as they were; the only file [Stream] made is the
    scratch file, whose name is not that of a record, and it is gone
    unless the system failed its removal. *)
Theorem Stream_handler_error
    (p : ptr) (handler : path -> M (option error)) (w : World)
    (tmp : path) (w1 : World) (e : error) (w2 : World) :
  osTempFile (directory (queueAt p w)) w = (inl tmp, w1) ->
  handler tmp w1 = (Some e, w2) ->
  let r := Stream p handler w in
  fst r = Some e
  /\ queues w1 = queues w
  /\ queues (snd r) = queues w2
  /\ (queues w2 = queues w1 -> queueAt p (snd r) = queueAt p w)
  /\ (forall f, f <> tmp -> files w1 !! f = files w !! f)
  /\ (forall f, f <> tmp -> files (snd r) !! f = files w2 !! f)
  /\ files w !! tmp = None
  /\ HasSuffix (snd tmp) dataSuffix = false
  /\ (injected w2 = None -> files (snd r) !! tmp = None)
  /\ trace (snd r) = app (trace w2) [EvRemove tmp (removeResult tmp w2)].
Proof.
  intros Htmp Hh. cbv zeta.
  rewrite (Stream_handler_fails _ _ _ _ _ _ _ Htmp Hh), osRemove_eq.
  cbn [fst snd queues files trace].
  apply osTempFile_inl in Htmp as (n & -> & Hfresh & Hinj & ->).
  cbn [queues files].
  repeat split; try done.
  - intros Hq. unfold queueAt, getQueue. cbn [fst queues]. by rewrite Hq.
  - intros f Hf. by rewrite lookup_insert_ne.
  - intros f Hf. destruct (injected w2); [done|]. by rewrite lookup_delete_ne.
  - cbn [snd Join]. apply HasSuffix_temp.
  - intros ->. apply lookup_delete_eq.
Qed.

Lemma Stream_handler_error_witness :
  let r := Stream 0%nat failingHandler oneInQueue in
  fst r = Some (ErrUser "stop")
  /\ queueAt 0%nat (snd r) = queueAt 0%nat oneInQueue
  /\ files (snd r) !! Join "q" "1.temp" = None
  /\ files (snd r) !! Join "q" "0.data" = files oneInQueue !! Join "q" "0.data".
Proof.
  pose proof
    (Stream_handler_error 0%nat failingHandler oneInQueue (Join "q" "1.temp")
       (snd (osTempFile "q" oneInQueue)) (ErrUser "stop")
       (snd (failingHandler (Join "q" "1.temp")
               (snd (osTempFile "q" oneInQueue))))) as H.
  destruct H as (H1 & _ & _ & H4 & _ & H6 & _ & _ & H9 & _).
  - vm_compute. reflexivity.
  - vm_compute. reflexivity.
  - cbv zeta. split; [exact H1|]. split; [apply H4; reflexivity|].
    split; [apply H9; reflexivity|].
    rewrite H6 by discriminate. vm_compute. reflexivity.
Defined.

(** [Put] from a reader that breaks off: the bytes read so far went to
    the scratch file only, and after the call the files and the queue
    structs are those from before it. *)
Lemma Put_reader_error p data e w :
  faults w = [] ->
  let r := Put p (mkReader data (Some e)) w in
  files (snd r) = files w
  /\ queues (snd r) = queues w
  /\ faults (snd r) = []
  /\ (fst r = Some (ErrWrap "dfq: put: write temp file" e)
      \/ exists e', fst r = Some (ErrWrap "dfq: put: create temp file" e')).
Proof.
  intros Hf. cbv zeta. unfold Put.
  destruct (osTempFile (directory (queueAt p w)) w) as [[tmp|e'] w1] eqn:Htmp.
  - pose proof Htmp as Htmp'.
    apply osTempFile_inl in Htmp' as (n & Hn & Hfresh & Hinj & Hw1).
    erewrite Stream_handler_fails; [|exact Htmp|].
    2:{ rewrite bind_eq. unfold ioCopy. rewrite bind_eq, osWrite_eq.
        cbn [fst snd rbytes rerr].
        replace (injected w1) with (@None error)
          by (subst w1; unfold injected; cbn; by rewrite Hf).
        mred. reflexivity. }
    rewrite osRemove_eq. cbn [fst snd files queues faults injected].
    subst w1. unfold injected. cbn [files queues faults]. rewrite Hf.
    cbn [tail head default]. repeat split; auto.
    rewrite lookup_insert_eq. cbn [default].
    rewrite insert_insert_eq, delete_insert_eq. by apply delete_id.
  - unfold Stream. mred. rewrite Htmp. cbn [fst snd]. mred.
    unfold osTempFile in Htmp. rewrite bind_eq in Htmp. unfold fault in Htmp.
    cbn [fst snd] in Htmp. rewrite Hf in Htmp. cbn [head default tail] in Htmp.
    destruct (firstFree _ _ _); [discriminate|].
    injection Htmp as <- <-. repeat split; eauto.
Qed.

(** ** Directory listings *)

Lemma elem_of_dirNames (dir name : string) (fs : gmap path bytes) :
  name ∈ dirNames dir fs <-> is_Some (fs !! Join dir name).
Proof.
  unfold dirNames, Join. rewrite list_elem_of_fmap. split.
  - intros ([[d n] b] & -> & Hin). apply list_elem_of_filter in Hin as [Hd Hin].
    cbn in Hd. subst d. apply elem_of_map_to_list in Hin. cbn. eauto.
  - intros [b Hb]. exists ((dir, name), b). split; [reflexivity|].
    apply list_elem_of_filter. split; [reflexivity|].
    by apply elem_of_map_to_list.
Qed.

Lemma NoDup_dirNames (dir : string) (fs : gmap path bytes) :
  NoDup (dirNames dir fs).
Proof.
  unfold dirNames. apply NoDup_fmap_2_strong.
  - intros [[d n] b] [[d' n'] b'] Hin Hin' Heq. cbn in Heq. subst n'.
    apply list_elem_of_filter in Hin as [Hd Hin].
    apply list_elem_of_filter in Hin' as [Hd' Hin'].
    cbn in Hd, Hd'. subst d d'.
    by rewrite (map_to_list_unique _ _ _ _ Hin Hin').
  - apply NoDup_filter, NoDup_map_to_list.
Qed.

Lemma filter_all {A} (P : A -> Prop) `{forall x, Decision (P x)} (l : list A) :
  Forall P l -> filter P l = l.
Proof.
  induction 1 as [|x l Hx Hl IH]; [reflexivity|].
  rewrite filter_cons_True by done. by rewrite IH.
Qed.

(** In a consistent state the records of the directory are the files
    of the ids from readCursor up to writeCounter. *)
Lemma Consistent_records p n w :
  Consistent p n w ->
  records (directory (queueAt p w)) w
  ≡ₚ (fun id => Sprint id dataSuffix)
       <$> seqZ (currentId (queueAt p w))
                (counter (queueAt p w) - currentId (queueAt p w)).
Proof.
  intros (Hp & Hf & Hcur & Hn & Hlen & Hfiles). unfold records.
  rewrite filter_all.
  - apply NoDup_Permutation.
    + apply NoDup_dirNames.
    + apply NoDup_fmap_2_strong; [|apply NoDup_seqZ].
      intros x y _ _. apply Sprint_inj.
    + intros name. rewrite elem_of_dirNames, Hfiles, list_elem_of_fmap.
      setoid_rewrite elem_of_seqZ. split.
      * intros (id & Hid & ->). exists id. split; [reflexivity|lia].
      * intros (id & -> & Hid). exists id. split; [lia|reflexivity].
  - apply Forall_forall. intros name Hin.
    apply elem_of_dirNames, Hfiles in Hin as (id & _ & ->).
    apply HasSuffix_data.
Qed.

Lemma Consistent_LenInvariant p n w : Consistent p n w -> LenInvariant p w.
Proof.
  intros HC. pose proof (Consistent_records p n w HC) as Hrec.
  destruct HC as (Hp & Hf & Hcur & Hn & Hlen & Hfiles).
  unfold LenInvariant. unfold Len at 1 2. mred. split.
  - rewrite Hrec, length_fmap, length_seqZ, Hlen. lia.
  - rewrite Peek_eq. cbn [fst]. unfold openResult, injected. rewrite Hf.
    cbn [head default]. rewrite Hlen.
    destruct (files w !! currentPath (queueAt p w)) as [b|] eqn:Hb.
    + assert (is_Some (files w !! currentPath (queueAt p w))) as Hs by eauto.
      apply Hfiles in Hs as (id & Hid & Heq). apply Sprint_inj in Heq.
      split; [lia|discriminate].
    + cbn [IsNotExist]. split; [reflexivity|]. intros _.
      destruct (decide (currentId (queueAt p w) < counter (queueAt p w)))
        as [Hlt|Hge]; [|lia].
      assert (is_Some (files w !! currentPath (queueAt p w))) as [? Hs].
      { apply Hfiles. exists (currentId (queueAt p w)). split; [lia|done]. }
      unfold currentPath in Hb, Hs. congruence.
Qed.

(** ** Attach and Put *)

Lemma attachToQueue_eq p old w :
  attachToQueue p old w
  = (let q := queueAt p w in
     let r := osRename old (Join (directory q) (Sprint (counter q) dataSuffix))
                       w in
     match fst r with
     | Some e => (Some (ErrWrap "rename temp file to queue element" e), snd r)
     | None => (None, putQueue p (setCounter (Int64.add (counter q) 1) q)
                               (snd r))
     end).
Proof.
  unfold attachToQueue. mred. cbv zeta.
  destruct (fst (osRename _ _ w)) eqn:Hr; mred; [reflexivity|].
  rewrite osRename_eq. reflexivity.
Qed.

Lemma Attach_eq p file w :
  allocated p w ->
  Attach p file w
  = (let q := queueAt p w in
     let r := osRename file (Join (directory q) (Sprint (counter q) dataSuffix))
                       w in
     match fst r with
     | Some e =>
         (Some (ErrWrap "dfq: attach to queue"
                  (ErrWrap "rename temp file to queue element" e)), snd r)
     | None => (None, putQueue p (attachQueue q) (snd r))
     end).
Proof.
  intros Hp. unfold Attach. rewrite bind_eq, attachToQueue_eq. cbv zeta.
  destruct (fst (osRename _ _ w)) eqn:Hr; cbn [fst snd]; mred; [reflexivity|].
  assert (Hp' : allocated p (snd (osRename file
             (Join (directory (queueAt p w))
                   (Sprint (counter (queueAt p w)) dataSuffix)) w))).
  { rewrite osRename_eq. exact Hp. }
  rewrite !queueAt_putQueue by auto using allocated_putQueue.
  rewrite !putQueue_putQueue. reflexivity.
Qed.


Lemma Stream_handler_ok p handler w tmp w1 w2 :
  osTempFile (directory (queueAt p w)) w = (inl tmp, w1) ->
  handler tmp w1 = (None, w2) ->
  Stream p handler w
  = (let r := Attach p tmp w2 in
     match fst r with
     | Some e => (Some e, snd (osRemove tmp (snd r)))
     | None => (None, snd r)
     end).
Proof.
  intros Htmp Hh. unfold Stream. mred. rewrite Htmp. cbn [fst snd].
  mred. rewrite Hh. cbn [fst snd]. mred. cbv zeta.
  destruct (fst (Attach p tmp w2)); mred; reflexivity.
Qed.

Lemma ioCopy_eq out src w :
  ioCopy out src w
  = (match injected w with Some e => Some e | None => rerr src end,
     snd (osWrite out (rbytes src) w)).
Proof.
  unfold ioCopy. mred. rewrite osWrite_eq. cbn [fst snd].
  destruct (injected w); reflexivity.
Qed.

Lemma Put_no_faults p r w :
  allocated p w ->
  faults w = [] ->
  let res := Put p r w in
  let q := queueAt p w in
  faults (snd res) = []
  /\ ((fst res <> None /\ files (snd res) = files w
       /\ queues (snd res) = queues w)
      \/ (fst res = None
          /\ files (snd res)
             = <[Join (directory q) (Sprint (counter q) dataSuffix)
                 := rbytes r]> (files w)
          /\ queues (snd res) = <[p := attachQueue q]> (queues w))).
Proof.
  intros Hp Hf. destruct r as [data [e|]].
  { destruct (Put_reader_error p data e w Hf) as (H1 & H2 & H3 & H4).
    cbv zeta. split; [exact H3|]. left. repeat split; auto.
    destruct H4 as [-> | [e' ->]]; discriminate. }
  cbv zeta. unfold Put.
  destruct (osTempFile (directory (queueAt p w)) w) as [[tmp|e'] w1] eqn:Htmp.
  - pose proof Htmp as Htmp'.
    apply osTempFile_inl in Htmp' as (n & Hn & Hfresh & Hinj & Hw1).
    erewrite Stream_handler_ok; [|exact Htmp|].
    2:{ rewrite bind_eq, ioCopy_eq, osWrite_eq. cbn [fst snd rbytes rerr].
        replace (injected w1) with (@None error)
          by (subst w1; unfold injected; cbn; by rewrite Hf).
        mred. reflexivity. }
    subst w1. cbn [files queues faults entropy trace]. rewrite Hf.
    cbn [tail]. rewrite lookup_insert_eq, insert_insert_eq. cbn [default app].
    rewrite Attach_eq by exact Hp. cbv zeta.
    rewrite osRename_eq. cbn [fst snd].
    unfold renameResult, injected. cbn [faults files tail head default].
    rewrite !lookup_insert_eq. 
    unfold putQueue, withQueues. cbn [files queues faults tail fst snd].
    split; [reflexivity|]. right. repeat split.
    rewrite delete_insert_eq, delete_id by done.
    reflexivity.
  - unfold Stream. mred. rewrite Htmp. cbn [fst snd]. mred.
    unfold osTempFile in Htmp. rewrite bind_eq in Htmp. unfold fault in Htmp.
    cbn [fst snd] in Htmp. rewrite Hf in Htmp. cbn [head default tail] in Htmp.
    destruct (firstFree _ _ _); [discriminate|].
    injection Htmp as <- <-. split; [reflexivity|]. left. by repeat split.
Qed.

(** ** The Len invariant *)

Lemma Consistent_weaken p n n' w : n <= n' -> Consistent p n w -> Consistent p n' w.
Proof.
  intros Hle (Hp & Hf & Hcur & Hn & Hlen & Hfiles).
  split; [exact Hp|]. split; [exact Hf|]. split; [exact Hcur|].
  split; [lia|]. split; [exact Hlen|exact Hfiles].
Qed.

Lemma Consistent_same p n w w' :
  files w' = files w -> queues w' = queues w -> faults w' = [] ->
  Consistent p n w -> Consistent p n w'.
Proof.
  intros Hfs Hqs Hf. unfold Consistent, allocated, queueAt, getQueue.
  cbn [fst]. rewrite Hfs, Hqs, Hf.
  intros (Hp & _ & Hrest). split; [exact Hp|]. split; [reflexivity|].
  exact Hrest.
Qed.

Lemma Consistent_Peek p n w : Consistent p n w -> Consistent p n (snd (Peek p w)).
Proof.
  intros HC. destruct (Peek_frame p w) as [Hq Hfs].
  apply (Consistent_same p n w); auto.
  rewrite Peek_eq, osOpen_eq. cbn. destruct HC as (_ & -> & _). reflexivity.
Qed.

Lemma Consistent_Commit p n w :
  n <= Int64.max ->
  Consistent p n w ->
  succeeds (fst (Peek p w)) ->
  Consistent p n (snd (Commit p w)).
Proof.
  intros Hmax HC Hpeek.
  destruct (Consistent_LenInvariant p n w HC) as [_ Hempty].
  destruct HC as (Hp & Hf & Hcur & Hn & Hlen & Hfiles).
  assert (Hlt : currentId (queueAt p w) < counter (queueAt p w)).
  { destruct (decide (currentId (queueAt p w) < counter (queueAt p w)));
      [done|].
    unfold Len in Hempty. rewrite bind_eq, getQueue_eq in Hempty.
    cbn [fst snd ret] in Hempty.
    destruct Hempty as [Hempty _]. rewrite Hempty in Hpeek by lia. done. }
  assert (Hinj : injected w = None) by (unfold injected; by rewrite Hf).
  pose proof (Commit_queue p w Hp) as Hq.
  pose proof (Commit_files p w Hp) as Hfs. rewrite Hinj in Hfs.
  unfold Int64.max in Hmax.
  assert (Hc : currentId (commitQueue (queueAt p w))
               = currentId (queueAt p w) + 1).
  { cbn [commitQueue currentId]. apply Int64Facts.add_small.
    unfold Int64.in_range, Int64.min, Int64.max. lia. }
  assert (Hl : length (commitQueue (queueAt p w))
               = length (queueAt p w) - 1).
  { cbn [commitQueue length]. rewrite Int64Facts.add_small; [lia|].
    unfold Int64.in_range, Int64.min, Int64.max. lia. }
  unfold Consistent. rewrite Hq, Hfs, Hc, Hl.
  cbn [commitQueue directory counter].
  split. { rewrite Commit_eq, osRemove_eq by done. by apply allocated_putQueue. }
  split. { rewrite Commit_eq, osRemove_eq by done. cbn. by rewrite Hf. }
  repeat split; try lia.
  - intros Hs. apply lookup_delete_is_Some in Hs as [Hne Hs].
    apply Hfiles in Hs as (id & Hid & ->). exists id. split; [|reflexivity].
    destruct (decide (id = currentId (queueAt p w))) as [->|]; [|lia].
    by destruct Hne.
  - intros (id & Hid & ->). apply lookup_delete_is_Some. split.
    + unfold currentPath, Join. intros [= Heq]. apply Sprint_inj in Heq. lia.
    + apply Hfiles. exists id. split; [lia|reflexivity].
Qed.

Lemma Consistent_Put p n r w :
  n + 1 <= Int64.max ->
  Consistent p n w ->
  Consistent p (n + 1) (snd (Put p r w)).
Proof.
  intros Hmax HC. pose proof HC as (Hp & Hf & Hcur & Hn & Hlen & Hfiles).
  destruct (Put_no_faults p r w Hp Hf) as [Hf' [(_ & Hfs & Hqs)|(_ & Hfs & Hqs)]].
  - apply (Consistent_weaken p n); [lia|].
    by apply (Consistent_same p n w).
  - unfold Int64.max in Hmax.
    assert (Hq : queueAt p (snd (Put p r w)) = attachQueue (queueAt p w)).
    { unfold queueAt at 1. unfold getQueue. cbn [fst]. rewrite Hqs.
      by rewrite list_lookup_insert_eq. }
    assert (Hc : counter (attachQueue (queueAt p w))
                 = counter (queueAt p w) + 1).
    { cbn [attachQueue counter]. apply Int64Facts.add_small.
      unfold Int64.in_range, Int64.min, Int64.max. lia. }
    assert (Hl : length (attachQueue (queueAt p w))
                 = length (queueAt p w) + 1).
    { cbn [attachQueue length]. apply Int64Facts.add_small.
      unfold Int64.in_range, Int64.min, Int64.max. lia. }
    unfold Consistent. rewrite Hq, Hfs, Hc, Hl.
    cbn [attachQueue directory currentId].
    split. { unfold allocated. rewrite Hqs. by rewrite length_insert. }
    split; [exact Hf'|].
    repeat split; try lia.
    + intros Hs. apply lookup_insert_is_Some in Hs as [Heq|[Hne Hs]].
      * injection Heq as <-. exists (counter (queueAt p w)).
        split; [lia|reflexivity].
      * apply Hfiles in Hs as (id & Hid & ->). exists id.
        split; [lia|reflexivity].
    + intros (id & Hid & ->). apply lookup_insert_is_Some.
      destruct (decide (id = counter (queueAt p w))) as [->|Hne].
      * left. reflexivity.
      * right. split.
        -- unfold Join. intros [= Heq]. apply Sprint_inj in Heq. lia.
        -- apply Hfiles. exists id. split; [lia|reflexivity].
Qed.

Lemma Consistent_execAll p cs : forall n w,
  n + Z.of_nat (List.length cs) <= Int64.max ->
  Consistent p n w ->
  guarded p cs w ->
  Consistent p (n + Z.of_nat (List.length cs)) (snd (execAll p cs w)).
Proof.
  induction cs as [|c cs IH]; intros n w Hmax HC Hg.
  - cbn. by rewrite Z.add_0_r.
  - cbn [execAll]. rewrite bind_eq. cbn [guarded] in Hg.
    destruct Hg as [Hc Hg]. cbn [List.length] in *.
    replace (n + Z.of_nat (S (List.length cs)))
      with ((n + 1) + Z.of_nat (List.length cs)) in * by lia.
    apply IH; [lia| |exact Hg].
    destruct c as [r| |]; unfold exec; rewrite bind_eq; cbn [snd ret].
    + apply Consistent_Put; [lia|done].
    + apply (Consistent_weaken p n); [lia|]. by apply Consistent_Peek.
    + apply (Consistent_weaken p n); [lia|].
      apply Consistent_Commit; [lia|done|by apply Hc].
Qed.

Lemma Open_empty_directory dir w :
  faults w = [] ->
  (forall name, files w !! Join dir name = None) ->
  Open dir w
  = ((Some (List.length (queues w)), None),
     mkWorld (files w) (app (queues w) [mkQueue dir false 0 0 0]) []
             (entropy w)
             (app (app (trace w) [EvMkdirAll dir None]) [EvReadDir dir None])).
Proof.
  intros Hf Hnone.
  assert (Hnames : dirNames dir (files w) = []).
  { apply elem_of_nil_inv. intros name Hin.
    apply elem_of_dirNames in Hin as [b Hb]. by rewrite Hnone in Hb. }
  unfold Open, osMkdirAll, newQueue, synchronizeState, osReadDir.
  unfold bind, ret, log, fault, getFiles, getQueue, setQueue, withQueues.
  cbn [fst snd files queues faults entropy trace]. rewrite Hf.
  cbn [head tail default fst snd files queues faults entropy trace].
  assert (Hlook : forall q : queue,
             (app (queues w) [q]) !! List.length (queues w) = Some q)
    by (intros q; by apply list_lookup_middle).
  rewrite !Hlook. cbn [default from_option id directory]. rewrite Hnames.
  cbn [merge_sort merge_sort_aux merge_stack syncLoop ret fst snd
       files queues faults entropy trace].
  rewrite ?Hlook. cbn [default from_option id].
  rewrite insert_app_r_alt by done. rewrite Nat.sub_diag. reflexivity.
Qed.

Lemma Open_empty_Consistent dir w :
  faults w = [] ->
  (forall name, files w !! Join dir name = None) ->
  Consistent (List.length (queues w)) 0 (snd (Open dir w)).
Proof.
  intros Hf Hnone. rewrite Open_empty_directory by done. cbn [snd].
  assert (Hq : queueAt (List.length (queues w))
                 (mkWorld (files w) (app (queues w) [mkQueue dir false 0 0 0])
                    [] (entropy w)
                    (app (app (trace w) [EvMkdirAll dir None])
                         [EvReadDir dir None]))
               = mkQueue dir false 0 0 0).
  { unfold queueAt, getQueue. cbn [fst queues].
    by rewrite list_lookup_middle. }
  unfold Consistent. rewrite Hq. cbn [directory currentId counter length files faults].
  split. { unfold allocated. cbn [queues]. rewrite length_app. cbn. lia. }
  repeat split; try lia.
  - intros [b Hb]. by rewrite Hnone in Hb.
  - intros (id & Hid & _). lia.
Qed.

(** C7, as amended.  Take a queue opened on a directory without
    entries, the system failing no call, and any sequence of [Put],
    [Peek] and [Commit] calls, fewer than 2^63 of them, in which each
    [Commit] comes when [Peek] would succeed.  Then [Open] succeeds,
    and after the calls [Len] is the number of record files in the
    directory, and it is 0 exactly when [Peek] reports the empty
    queue. *)
Theorem Len_invariant_guarded (dir : string) (w0 : World) (cs : list call) :
  faults w0 = [] ->
  (forall name, files w0 !! Join dir name = None) ->
  Z.of_nat (List.length cs) <= Int64.max ->
  guarded (List.length (queues w0)) cs (snd (Open dir w0)) ->
  fst (Open dir w0) = (Some (List.length (queues w0)), None)
  /\ LenInvariant (List.length (queues w0))
       (snd (execAll (List.length (queues w0)) cs (snd (Open dir w0)))).
Proof.
  intros Hf Hnone Hlen Hg. split.
  - by rewrite Open_empty_directory.
  - apply (Consistent_LenInvariant _ (0 + Z.of_nat (List.length cs))).
    apply Consistent_execAll; [lia| |exact Hg].
    by apply Open_empty_Consistent.
Qed.

Lemma Len_invariant_guarded_witness :
  let cs := [CallPut (NewBufferString "x"); CallPut (NewBufferString "y");
             CallPeek; CallCommit] in
  let w := snd (execAll 0%nat cs (snd (Open "q" emptyWorld))) in
  fst (Len 0%nat w) = 1
  /\ LenInvariant 0%nat w.
Proof.
  pose proof
    (Len_invariant_guarded "q" emptyWorld
       [CallPut (NewBufferString "x"); CallPut (NewBufferString "y");
        CallPeek; CallCommit]) as H.
  destruct H as [_ H].
  - reflexivity.
  - intros name. apply lookup_empty.
  - vm_compute. discriminate.
  - vm_compute. repeat split; discriminate.
  - cbv zeta. split; [vm_compute; reflexivity|exact H].
Defined.

(** C7, as the specification states it, fails: [Commit] on a freshly
    opened empty queue leaves the length at -1 while the directory
    holds no record. *)
Lemma Len_invariant_broken_by_Commit :
  fst (Len 0%nat (snd (execAll 0%nat [CallCommit] freshQueue))) = -1
  /\ records "q" (snd (execAll 0%nat [CallCommit] freshQueue)) = []
  /\ ~ LenInvariant 0%nat (snd (execAll 0%nat [CallCommit] freshQueue)).
Proof.
  split; [vm_compute; reflexivity|]. split; [vm_compute; reflexivity|].
  intros [H _]. vm_compute in H. discriminate.
Qed.

(** Nor does it hold right after reopening a directory that holds one
    record. *)
Lemma Len_invariant_broken_by_reopen :
  ~ LenInvariant 0%nat (snd (Open "q" oneRecordWorld)).
Proof. intros [H _]. vm_compute in H. discriminate. Qed.

(** ** The recovery scan, in general *)

Lemma minimum_min x y l : minimum (Z.min x y) l = Z.min y (minimum x l).
Proof.
  unfold minimum. induction l as [|z l IH]; cbn [foldr]; [lia|].
  rewrite IH. lia.
Qed.

Lemma maximum_max x y l : maximum (Z.max x y) l = Z.max y (maximum x l).
Proof.
  unfold maximum. induction l as [|z l IH]; cbn [foldr]; [lia|].
  rewrite IH. lia.
Qed.

Lemma dataIds_record name rest id :
  HasSuffix name dataSuffix = true ->
  ParseInt (cutSuffix name dataSuffix) = inl id ->
  dataIds (name :: rest) = id :: dataIds rest.
Proof. intros H1 H2. unfold dataIds. simpl. by rewrite H1, H2. Qed.

Lemma dataIds_other name rest :
  HasSuffix name dataSuffix = false ->
  dataIds (name :: rest) = dataIds rest.
Proof. intros H1. unfold dataIds. simpl. by rewrite H1. Qed.

(** Past the first entry of the listing the loop keeps the least and
    the greatest id seen. *)
Lemma syncLoop_later dir names : forall i mn mx w a b w',
  i <> 0%nat ->
  mn <= mx ->
  syncLoop dir names i mn mx w = (inl (a, b), w') ->
  a = minimum mn (dataIds names) /\ b = maximum mx (dataIds names).
Proof.
  induction names as [|name rest IH]; intros i mn mx w a b w' Hi Hle.
  - cbn. intros [= <- <- _]. auto.
  - cbn [syncLoop].
    destruct (HasSuffix name dataSuffix) eqn:Hdata.
    + destruct (ParseInt (cutSuffix name dataSuffix)) as [id|e] eqn:Hparse;
        [|discriminate].
      rewrite (dataIds_record _ _ _ Hdata Hparse).
      destruct (Nat.eqb_spec i 0) as [->|_]; [done|].
      unfold minimum, maximum. cbn [foldr].
      fold (minimum mn (dataIds rest)). fold (maximum mx (dataIds rest)).
      destruct (Z.ltb_spec mx id) as [Hlt|Hge].
      * intros Hrun. apply IH in Hrun as [-> ->]; [|lia|lia].
        rewrite <- minimum_min, <- maximum_max.
        by rewrite Z.min_l, Z.max_r by lia.
      * destruct (Z.ltb_spec id mn) as [Hlt|Hge'].
        -- intros Hrun. apply IH in Hrun as [-> ->]; [|lia|lia].
           rewrite <- minimum_min, <- maximum_max.
           by rewrite Z.min_r, Z.max_l by lia.
        -- intros Hrun. apply IH in Hrun as [-> ->]; [|lia|lia].
           rewrite <- minimum_min, <- maximum_max.
           by rewrite Z.min_l, Z.max_l by lia.
    + rewrite (dataIds_other _ _ Hdata).
      destruct (HasSuffix name tempSuffix).
      * rewrite bind_eq. destruct (fst (osRemove _ w)); [discriminate|].
        apply IH; [lia|done].
      * apply IH; [lia|done].
Qed.

(** When the listing starts with a record, the scan ends with the
    least and the greatest of the ids of all records, whatever the
    order of the entries that follow and whatever scratch files lie
    between them. *)
Lemma syncLoop_record_first dir name rest w a b w' :
  HasSuffix name dataSuffix = true ->
  syncLoop dir (name :: rest) 0 0 0 w = (inl (a, b), w') ->
  exists id,
    dataIds (name :: rest) = id :: dataIds rest
    /\ a = minimum id (dataIds rest)
    /\ b = maximum id (dataIds rest).
Proof.
  intros Hdata. cbn [syncLoop]. rewrite Hdata.
  destruct (ParseInt (cutSuffix name dataSuffix)) as [id|e] eqn:Hparse;
    [|discriminate].
  cbn [Nat.eqb]. intros Hrun. exists id.
  split; [by apply dataIds_record|].
  by apply syncLoop_later in Hrun.
Qed.

(** Whenever the scan succeeds, the length it stores is the difference
    of the two counters it stores. *)
Lemma synchronizeState_length p w :
  allocated p w ->
  fst (synchronizeState p w) = None ->
  length (queueAt p (snd (synchronizeState p w)))
  = Int64.sub (counter (queueAt p (snd (synchronizeState p w))))
              (currentId (queueAt p (snd (synchronizeState p w)))).
Proof.
  intros Hp. unfold synchronizeState. mred.
  destruct (fst (osReadDir _ w)) as [names|e] eqn:Hdir; [|discriminate].
  mred.
  destruct (fst (syncLoop _ names 0 0 0 _)) as [[mn mx]|e] eqn:Hloop;
    [|discriminate].
  mred. intros _. rewrite queueAt_putQueue; [reflexivity|].
  unfold allocated in *.
  assert (Hsync : forall l i a b w0,
             queues (snd (syncLoop (directory (queueAt p w)) l i a b w0))
             = queues w0).
  { induction l as [|n l IH]; intros i a b w0; [reflexivity|].
    cbn [syncLoop].
    destruct (HasSuffix n dataSuffix).
    - destruct (ParseInt _); [|reflexivity].
      destruct (i =? 0)%nat; [apply IH|].
      destruct (b <? z); [apply IH|]. destruct (z <? a); apply IH.
    - destruct (HasSuffix n tempSuffix); [|apply IH].
      rewrite bind_eq. destruct (fst (osRemove _ w0)) eqn:Hr.
      + rewrite osRemove_eq. reflexivity.
      + rewrite IH, osRemove_eq. reflexivity. }
  rewrite Hsync. unfold osReadDir. rewrite !bind_eq. unfold fault, log.
  cbn [fst snd]. destruct (default None (head (faults w))); exact Hp.
Qed.

(** In a session begun on an empty directory a publication never
    lands on a file that is there. *)
Lemma Consistent_next_id_free p n w :
  Consistent p n w ->
  files w !! Join (directory (queueAt p w))
                  (Sprint (counter (queueAt p w)) dataSuffix) = None.
Proof.
  intros (Hp & Hf & Hcur & Hn & Hlen & Hfiles).
  apply eq_None_not_Some. intros Hs.
  apply Hfiles in Hs as (id & Hid & Heq). apply Sprint_inj in Heq. lia.
Qed.

(** * Further properties of the code *)

(** ** The queue holds a list of payloads *)

Lemma Holds_same p l w w' :
  files w' = files w -> queues w' = queues w -> faults w' = [] ->
  Holds p l w -> Holds p l w'.
Proof.
  intros Hfs Hqs Hf. unfold Holds, allocated, queueAt, getQueue.
  cbn [fst]. rewrite Hfs, Hqs, Hf.
  intros (Hp & _ & Hrest). split; [exact Hp|]. split; [reflexivity|].
  exact Hrest.
Qed.

Lemma Holds_Consistent p l w :
  Holds p l w -> Consistent p (counter (queueAt p w)) w.
Proof.
  intros (Hp & Hf & Hcur & Hcnt & Hmax & Hlen & Hfiles).
  split; [exact Hp|]. split; [exact Hf|]. split; [lia|]. split; [lia|].
  split; [lia|]. intros name. split.
  - intros [b Hb]. apply Hfiles in Hb as (i & Hi & ->).
    apply lookup_lt_Some in Hi.
    exists (currentId (queueAt p w) + Z.of_nat i). split; [lia|reflexivity].
  - intros (id & Hid & ->).
    destruct (lookup_lt_is_Some_2 l (Z.to_nat (id - currentId (queueAt p w))))
      as [b Hb]; [lia|].
    exists b. apply Hfiles. exists (Z.to_nat (id - currentId (queueAt p w))).
    split; [exact Hb|]. f_equal. lia.
Qed.

Lemma Holds_front p l w :
  Holds p l w ->
  files w !! currentPath (queueAt p w) = head l.
Proof.
  intros (Hp & Hf & Hcur & Hcnt & Hmax & Hlen & Hfiles).
  unfold currentPath. destruct l as [|b l]; cbn [head].
  - apply eq_None_not_Some. intros [b Hb].
    apply Hfiles in Hb as (i & Hi & _). by rewrite lookup_nil in Hi.
  - apply Hfiles. exists 0%nat. split; [reflexivity|]. f_equal. lia.
Qed.

Lemma Holds_GetBytes p l w :
  Holds p l w -> fst (GetBytes (Peek p) w) = listFront l.
Proof.
  intros HH. pose proof (Holds_front p l w HH) as Hfront.
  destruct HH as (Hp & Hf & _).
  unfold GetBytes. rewrite bind_eq, Peek_eq. cbn [fst snd].
  unfold openResult, injected. rewrite Hf. cbn [head default from_option id].
  rewrite Hfront. destruct l as [|b l]; reflexivity.
Qed.

Lemma Holds_Peek p l w : Holds p l w -> Holds p l (snd (Peek p w)).
Proof.
  intros HH. destruct (Peek_frame p w) as [Hq Hfs].
  apply (Holds_same p l w); auto.
  rewrite Peek_eq, osOpen_eq. cbn. destruct HH as (_ & -> & _). reflexivity.
Qed.

Lemma Holds_Commit p b l w :
  Holds p (b :: l) w ->
  fst (Commit p w) = None /\ Holds p l (snd (Commit p w)).
Proof.
  intros (Hp & Hf & Hcur & Hcnt & Hmax & Hlen & Hfiles).
  assert (Hinj : injected w = None) by (unfold injected; by rewrite Hf).
  pose proof (Commit_queue p w Hp) as Hq.
  pose proof (Commit_files p w Hp) as Hfs. rewrite Hinj in Hfs.
  pose proof (Commit_result p w Hp) as Hres. rewrite Hinj in Hres.
  cbn [List.length] in *. unfold Int64.max in Hmax.
  assert (Hc : currentId (commitQueue (queueAt p w))
               = currentId (queueAt p w) + 1).
  { cbn [commitQueue currentId]. apply Int64Facts.add_small.
    unfold Int64.in_range, Int64.min, Int64.max. lia. }
  assert (Hl : length (commitQueue (queueAt p w))
               = length (queueAt p w) - 1).
  { cbn [commitQueue length]. rewrite Int64Facts.add_small; [lia|].
    unfold Int64.in_range, Int64.min, Int64.max. lia. }
  split; [exact Hres|].
  unfold Holds. rewrite Hq, Hfs, Hc, Hl. cbn [commitQueue directory counter].
  split. { rewrite Commit_eq, osRemove_eq by done. by apply allocated_putQueue. }
  split. { rewrite Commit_eq, osRemove_eq by done. cbn. by rewrite Hf. }
  split; [lia|]. split; [lia|]. split; [unfold Int64.max; lia|].
  split; [lia|]. intros name b'. rewrite lookup_delete_Some. split.
  - intros [Hne Hb]. apply Hfiles in Hb as (i & Hi & ->).
    destruct i as [|i].
    + destruct Hne. unfold currentPath, Join. do 2 f_equal. lia.
    + exists i. split; [exact Hi|]. f_equal. lia.
  - intros (i & Hi & ->). split.
    + unfold currentPath, Join. intros [= Heq]. apply Sprint_inj in Heq. lia.
    + apply Hfiles. exists (S i). split; [exact Hi|]. f_equal. lia.
Qed.

Lemma Holds_append p l w data :
  Holds p l w ->
  counter (queueAt p w) < Int64.max ->
  forall w',
    faults w' = [] ->
    files w'
    = <[Join (directory (queueAt p w))
             (Sprint (counter (queueAt p w)) dataSuffix) := data]> (files w) ->
    queues w' = <[p := attachQueue (queueAt p w)]> (queues w) ->
    Holds p (app l [data]) w'.
Proof.
  intros (Hp & Hf & Hcur & Hcnt & Hmax & Hlen & Hfiles) Hlt w' Hf' Hfs Hqs.
  unfold Int64.max in *.
  assert (Hq : queueAt p w' = attachQueue (queueAt p w)).
  { unfold queueAt at 1. unfold getQueue. cbn [fst]. rewrite Hqs.
    by rewrite list_lookup_insert_eq. }
  assert (Hc : counter (attachQueue (queueAt p w))
               = counter (queueAt p w) + 1).
  { cbn [attachQueue counter]. apply Int64Facts.add_small.
    unfold Int64.in_range, Int64.min, Int64.max. lia. }
  assert (Hl : length (attachQueue (queueAt p w))
               = length (queueAt p w) + 1).
  { cbn [attachQueue length]. apply Int64Facts.add_small.
    unfold Int64.in_range, Int64.min, Int64.max. lia. }
  unfold Holds. rewrite Hq, Hfs, Hc, Hl. cbn [attachQueue directory currentId].
  rewrite length_app. cbn [List.length].
  split. { unfold allocated. rewrite Hqs. by rewrite length_insert. }
  split; [exact Hf'|].
  split; [lia|]. split; [lia|]. split; [unfold Int64.max; lia|].
  split; [lia|].
  intros name b'. rewrite lookup_insert_Some. split.
  - intros [[Heq <-]|[Hne Hb]].
    + injection Heq as <-. exists (List.length l). split.
      * by rewrite lookup_app_r, Nat.sub_diag by done.
      * f_equal. lia.
    + apply Hfiles in Hb as (i & Hi & ->). exists i. split; [|reflexivity].
      by apply lookup_app_l_Some.
  - intros (i & Hi & ->). apply lookup_app_Some in Hi as [Hi|[Hge Hi]].
    + right. split.
      * apply lookup_lt_Some in Hi. unfold Join. intros [= Heq].
        apply Sprint_inj in Heq. lia.
      * apply Hfiles. eauto.
    + left. destruct (i - List.length l)%nat as [|k] eqn:Hk;
        [|by rewrite lookup_cons, lookup_nil in Hi].
      injection Hi as <-. split; [|reflexivity]. unfold Join. do 2 f_equal. lia.
Qed.

Lemma tempTries_succ : exists k, tempTries = S k.
Proof. eexists. vm_compute. reflexivity. Qed.

Lemma osTempFile_free dir w :
  injected w = None ->
  files w !! Join dir (tempName (entropy w)) = None ->
  fst (osTempFile dir w) = inl (Join dir (tempName (entropy w))).
Proof.
  intros Hinj Hfree. unfold osTempFile. rewrite bind_eq. unfold fault.
  cbn [fst snd]. fold (injected w). rewrite Hinj.
  destruct tempTries_succ as [k ->]. cbn [firstFree files entropy].
  rewrite Hfree. rewrite bool_decide_eq_false_2 by (intros [? ?]; discriminate).
  reflexivity.
Qed.

Lemma Put_after_temp p r w tmp w1 :
  allocated p w ->
  faults w = [] ->
  rerr r = None ->
  osTempFile (directory (queueAt p w)) w = (inl tmp, w1) ->
  fst (Put p r w) = None
  /\ faults (snd (Put p r w)) = []
  /\ files (snd (Put p r w))
     = <[Join (directory (queueAt p w))
              (Sprint (counter (queueAt p w)) dataSuffix) := rbytes r]>
         (files w)
  /\ queues (snd (Put p r w))
     = <[p := attachQueue (queueAt p w)]> (queues w).
Proof.
  intros Hp Hf Hr Htmp. destruct r as [data rerr0]. cbn in Hr. subst rerr0.
  unfold Put. pose proof Htmp as Htmp'.
  apply osTempFile_inl in Htmp' as (n & Hn & Hfresh & Hinj & Hw1).
  erewrite Stream_handler_ok; [|exact Htmp|].
  2:{ rewrite bind_eq, ioCopy_eq, osWrite_eq. cbn [fst snd rbytes rerr].
      replace (injected w1) with (@None error)
        by (subst w1; unfold injected; cbn; by rewrite Hf).
      mred. reflexivity. }
  subst w1. cbn [files queues faults entropy trace]. rewrite Hf.
  cbn [tail]. rewrite lookup_insert_eq, insert_insert_eq.
  cbn [default from_option id app].
  rewrite Attach_eq by exact Hp. cbv zeta.
  rewrite osRename_eq. cbn [fst snd].
  unfold renameResult, injected. cbn [faults files tail head default from_option id].
  rewrite !lookup_insert_eq.
  unfold putQueue, withQueues. cbn [files queues faults tail fst snd rbytes].
  repeat split.
  rewrite delete_insert_eq, delete_id by done. reflexivity.
Qed.

Lemma Holds_temp_free p l w n :
  Holds p l w ->
  files w !! Join (directory (queueAt p w)) (tempName n) = None.
Proof.
  intros (_ & _ & _ & _ & _ & _ & Hfiles).
  apply eq_None_not_Some. intros [b Hb].
  apply Hfiles in Hb as (i & _ & Heq). by apply tempName_not_data in Heq.
Qed.

Lemma Holds_Put_clean p l r w :
  Holds p l w ->
  counter (queueAt p w) < Int64.max ->
  rerr r = None ->
  fst (Put p r w) = None
  /\ Holds p (app l [rbytes r]) (snd (Put p r w))
  /\ queueAt p (snd (Put p r w)) = attachQueue (queueAt p w).
Proof.
  intros HH Hlt Hr. pose proof HH as (Hp & Hf & _).
  assert (Hinj : injected w = None) by (unfold injected; by rewrite Hf).
  pose proof (osTempFile_free (directory (queueAt p w)) w Hinj
                (Holds_temp_free p l w _ HH)) as Htmp.
  destruct (osTempFile (directory (queueAt p w)) w) as [r0 w1] eqn:Hos.
  cbn [fst] in Htmp. subst r0.
  destruct (Put_after_temp p r w _ w1 Hp Hf Hr Hos) as (H1 & H2 & H3 & H4).
  split; [exact H1|]. split; [by apply (Holds_append p l w)|].
  unfold queueAt at 1. unfold getQueue. cbn [fst]. rewrite H4.
  by rewrite list_lookup_insert_eq.
Qed.

Lemma Holds_Put_broken p l data e w :
  Holds p l w ->
  fst (Put p (mkReader data (Some e)) w)
  = Some (ErrWrap "dfq: put: write temp file" e)
  /\ Holds p l (snd (Put p (mkReader data (Some e)) w))
  /\ queues (snd (Put p (mkReader data (Some e)) w)) = queues w.
Proof.
  intros HH. pose proof HH as (Hp & Hf & _).
  destruct (Put_reader_error p data e w Hf) as (H1 & H2 & H3 & H4).
  split; [|split; [by apply (Holds_same p l w)|exact H2]].
  destruct H4 as [H4|[e' H4]]; [exact H4|].
  assert (Hinj : injected w = None) by (unfold injected; by rewrite Hf).
  pose proof (osTempFile_free (directory (queueAt p w)) w Hinj
                (Holds_temp_free p l w _ HH)) as Htmp.
  unfold Put, Stream in H4. rewrite !bind_eq, getQueue_eq in H4.
  cbn [fst snd] in H4.
  destruct (osTempFile (directory (queueAt p w)) w) as [r0 w1] eqn:Hos.
  cbn [fst snd] in Htmp, H4. subst r0. rewrite !bind_eq in H4.
  rewrite ioCopy_eq in H4. cbn [fst snd rerr] in H4.
  destruct (injected w1); cbn in H4; discriminate.
Qed.

Lemma Holds_guard p l w :
  Holds p l w -> succeeds (fst (Peek p w)) -> exists b l', l = b :: l'.
Proof.
  intros HH Hs. pose proof (Holds_GetBytes p l w HH) as Hget.
  destruct l as [|b l']; [|eauto].
  unfold GetBytes in Hget. rewrite bind_eq in Hget.
  destruct (fst (Peek p w)); [discriminate|done].
Qed.

Lemma Holds_exec p c l w :
  Holds p l w ->
  counter (queueAt p w) < Int64.max ->
  (c = CallCommit -> succeeds (fst (Peek p w))) ->
  Holds p (listExec c l) (snd (exec p c w))
  /\ counter (queueAt p (snd (exec p c w))) <= counter (queueAt p w) + 1.
Proof.
  intros HH Hlt Hg. pose proof HH as (Hp & _).
  destruct c as [[data [e|]]| |]; unfold exec; rewrite bind_eq;
    cbn [snd ret listExec rerr rbytes].
  - destruct (Holds_Put_broken p l data e w HH) as (_ & H2 & H3).
    split; [exact H2|]. unfold queueAt, getQueue. cbn [fst]. rewrite H3. lia.
  - destruct (Holds_Put_clean p l (mkReader data None) w HH Hlt eq_refl)
      as (_ & H2 & H3).
    split; [exact H2|]. rewrite H3. cbn [attachQueue counter].
    rewrite Int64Facts.add_small; [lia|].
    destruct HH as (_ & _ & Hcur & Hcnt & _).
    unfold Int64.in_range, Int64.min, Int64.max in *. lia.
  - split; [by apply Holds_Peek|].
    destruct (Peek_frame p w) as [Hq _].
    unfold queueAt, getQueue. cbn [fst]. rewrite Hq. lia.
  - destruct (Holds_guard p l w HH (Hg eq_refl)) as (b & l' & ->).
    split; [by apply (Holds_Commit p b l' w)|].
    rewrite Commit_queue by done. cbn [commitQueue counter]. lia.
Qed.

Lemma Holds_execAll p cs : forall l w,
  Holds p l w ->
  counter (queueAt p w) + Z.of_nat (List.length cs) <= Int64.max ->
  guarded p cs w ->
  Holds p (listExecAll cs l) (snd (execAll p cs w)).
Proof.
  induction cs as [|c cs IH]; intros l w HH Hmax Hg; [exact HH|].
  cbn [execAll listExecAll foldl]. rewrite bind_eq.
  cbn [guarded List.length] in *. destruct Hg as [Hc Hg].
  destruct (Holds_exec p c l w HH) as [HH' Hcnt]; [lia|exact Hc|].
  apply IH; [exact HH'|lia|exact Hg].
Qed.

Lemma Open_empty_Holds dir w :
  faults w = [] ->
  (forall name, files w !! Join dir name = None) ->
  Holds (List.length (queues w)) [] (snd (Open dir w))
  /\ queueAt (List.length (queues w)) (snd (Open dir w))
     = mkQueue dir false 0 0 0.
Proof.
  intros Hf Hnone. rewrite Open_empty_directory by done. cbn [snd].
  assert (Hq : queueAt (List.length (queues w))
                 (mkWorld (files w) (app (queues w) [mkQueue dir false 0 0 0])
                    [] (entropy w)
                    (app (app (trace w) [EvMkdirAll dir None])
                         [EvReadDir dir None]))
               = mkQueue dir false 0 0 0).
  { unfold queueAt, getQueue. cbn [fst queues].
    by rewrite list_lookup_middle. }
  split; [|exact Hq].
  unfold Holds. rewrite Hq.
  cbn [directory currentId counter length files faults List.length].
  split. { unfold allocated. cbn [queues]. rewrite length_app. cbn. lia. }
  split; [reflexivity|]. split; [lia|]. split; [lia|].
  split; [unfold Int64.max; lia|]. split; [lia|].
  intros name b. rewrite Hnone. split; [discriminate|].
  intros (i & Hi & _). by rewrite lookup_nil in Hi.
Qed.

(** X1.  A queue opened on a directory without entries and used
    through [Put], [Peek] and [Commit], every [Commit] coming when
    [Peek] would succeed and no system call failing, behaves as the
    list of payloads: a [Put] whose reader ends cleanly appends its
    bytes, a [Put] whose reader breaks off changes nothing, [Commit]
    drops the first element.  After the calls [Len] is the length of
    that list and [GetBytes] returns its first element, or
    [ErrEmptyQueue] when it is empty. *)
Theorem queue_is_fifo (dir : string) (w0 : World) (cs : list call) :
  faults w0 = [] ->
  (forall name, files w0 !! Join dir name = None) ->
  Z.of_nat (List.length cs) <= Int64.max ->
  guarded (List.length (queues w0)) cs (snd (Open dir w0)) ->
  let p := List.length (queues w0) in
  let w := snd (execAll p cs (snd (Open dir w0))) in
  fst (Len p w) = Z.of_nat (List.length (listExecAll cs []))
  /\ fst (GetBytes (Peek p) w) = listFront (listExecAll cs []).
Proof.
  intros Hf Hnone Hmax Hg. cbv zeta.
  destruct (Open_empty_Holds dir w0 Hf Hnone) as [HH Hq].
  assert (Hfinal : Holds (List.length (queues w0)) (listExecAll cs [])
                     (snd (execAll (List.length (queues w0)) cs
                             (snd (Open dir w0))))).
  { apply Holds_execAll; [exact HH| |exact Hg]. rewrite Hq. cbn. lia. }
  split; [|by apply Holds_GetBytes].
  destruct Hfinal as (_ & _ & _ & _ & _ & Hlen & _).
  unfold Len. rewrite bind_eq. exact Hlen.
Qed.

Lemma queue_is_fifo_witness :
  let cs := [CallPut (NewBufferString "x");
             CallPut (mkReader (list_byte_of_string "lost") (Some EIO));
             CallPut (NewBufferString "y"); CallPeek; CallCommit] in
  let w := snd (execAll 0%nat cs (snd (Open "q" emptyWorld))) in
  fst (Len 0%nat w) = 1
  /\ fst (GetBytes (Peek 0%nat) w) = inl (list_byte_of_string "y").
Proof.
  pose proof
    (queue_is_fifo "q" emptyWorld
       [CallPut (NewBufferString "x");
        CallPut (mkReader (list_byte_of_string "lost") (Some EIO));
        CallPut (NewBufferString "y"); CallPeek; CallCommit]) as H.
  destruct H as [H1 H2].
  - reflexivity.
  - intros name. apply lookup_empty.
  - vm_compute. discriminate.
  - vm_compute. repeat split; discriminate.
  - cbv zeta. split; [exact H1|exact H2].
Defined.

(** [Holds] looks at the struct of the queue and at the entries of its
    directory only. *)
Lemma Holds_local p l w w' :
  allocated p w' ->
  faults w' = [] ->
  queueAt p w' = queueAt p w ->
  (forall name,
     files w' !! Join (directory (queueAt p w)) name
     = files w !! Join (directory (queueAt p w)) name) ->
  Holds p l w -> Holds p l w'.
Proof.
  intros Hp' Hf' Hq Hfs (Hp & Hf & Hcur & Hcnt & Hmax & Hlen & Hfiles).
  unfold Holds. rewrite Hq.
  split; [exact Hp'|]. split; [exact Hf'|]. split; [exact Hcur|].
  split; [exact Hcnt|]. split; [exact Hmax|]. split; [exact Hlen|].
  intros name b. rewrite Hfs. apply Hfiles.
Qed.

Lemma queueAt_other p p' q w :
  p <> p' -> queueAt p (putQueue p' q w) = queueAt p w.
Proof.
  intros Hne. unfold queueAt, getQueue, putQueue, withQueues. cbn [fst queues].
  by rewrite list_lookup_insert_ne.
Qed.

Lemma freshQueue_Holds : Holds 0%nat [] freshQueue.
Proof.
  destruct (Open_empty_Holds "q" emptyWorld) as [HH _]; [reflexivity| |exact HH].
  intros name. apply lookup_empty.
Qed.

Lemma oneInQueue_Holds : Holds 0%nat [list_byte_of_string "x"] oneInQueue.
Proof.
  destruct (Holds_Put_clean 0%nat [] (NewBufferString "x") freshQueue)
    as (_ & HH & _); [exact freshQueue_Holds|vm_compute; reflexivity|reflexivity|].
  exact HH.
Qed.

(** X2.  On a queue that holds the payloads [l], with the writer's
    counter below the greatest int64 and no system call failing, a
    [Put] from a reader that ends cleanly returns no error: a free
    scratch name is found, the payload becomes the newest record
    behind those already held, readCursor stays where it is,
    writeCounter and the length go up by one and the wake-up signal
    is pending. *)
Theorem Put_appends (p : ptr) (l : list bytes) (data : bytes) (w : World) :
  Holds p l w ->
  counter (queueAt p w) < Int64.max ->
  let r := Put p (mkReader data None) w in
  fst r = None
  /\ Holds p (app l [data]) (snd r)
  /\ currentId (queueAt p (snd r)) = currentId (queueAt p w)
  /\ counter (queueAt p (snd r)) = counter (queueAt p w) + 1
  /\ fst (Len p (snd r)) = fst (Len p w) + 1
  /\ notify (queueAt p (snd r)) = true.
Proof.
  intros HH Hlt. cbv zeta.
  destruct (Holds_Put_clean p l (mkReader data None) w HH Hlt eq_refl)
    as (H1 & H2 & H3).
  destruct HH as (_ & _ & Hcur & Hcnt & Hmax & Hlen & _).
  split; [exact H1|]. split; [exact H2|].
  unfold Len. rewrite !bind_eq, !getQueue_eq. cbn [fst snd ret].
  rewrite H3. cbn [attachQueue currentId counter length notify].
  unfold Int64.max in *.
  rewrite !Int64Facts.add_small
    by (unfold Int64.in_range, Int64.min, Int64.max; lia).
  repeat split.
Qed.

Lemma Put_appends_witness :
  let r := Put 0%nat (mkReader (list_byte_of_string "y") None) oneInQueue in
  fst r = None
  /\ Holds 0%nat [list_byte_of_string "x"; list_byte_of_string "y"] (snd r)
  /\ fst (Len 0%nat (snd r)) = 2.
Proof.
  pose proof (Put_appends 0%nat [list_byte_of_string "x"]
                (list_byte_of_string "y") oneInQueue oneInQueue_Holds) as H.
  destruct H as (H1 & H2 & _ & _ & H5 & _); [vm_compute; reflexivity|].
  cbv zeta. split; [exact H1|]. split; [exact H2|]. rewrite H5. reflexivity.
Defined.

(** X3.  What is put as a string comes back as that string: on a
    queue holding nothing, after [Put] of [NewBufferString s],
    [GetString] returns [s], and it keeps returning it until
    [Commit]. *)
Theorem Put_GetString_roundtrip (p : ptr) (s : string) (w : World) :
  Holds p [] w ->
  counter (queueAt p w) < Int64.max ->
  let w1 := snd (Put p (NewBufferString s) w) in
  fst (GetString (Peek p) w1) = inl s
  /\ fst (GetString (Peek p) (snd (GetString (Peek p) w1))) = inl s.
Proof.
  intros HH Hlt. cbv zeta.
  destruct (Holds_Put_clean p [] (NewBufferString s) w HH Hlt eq_refl)
    as (_ & H2 & _).
  cbn [app NewBufferString rbytes] in H2.
  assert (Hget : forall w', Holds p [list_byte_of_string s] w' ->
                   fst (GetString (Peek p) w') = inl s).
  { intros w' H'. unfold GetString. rewrite bind_eq.
    rewrite (Holds_GetBytes p _ w' H'). cbn [listFront ret fst].
    by rewrite string_of_list_byte_of_string. }
  split; [by apply Hget|]. apply Hget.
  unfold GetString, GetBytes. rewrite !bind_eq.
  assert (Hsnd : forall (r : handle + error) w',
             snd (match
                    fst (match r with
                         | inl f => ret (inl (hbytes f))
                         | inr e => ret (inr e)
                         end w')
                  with
                  | inl data => ret (inl (string_of_list_byte data))
                  | inr e => ret (inr e)
                  end
                    (snd (match r with
                          | inl f => ret (inl (hbytes f))
                          | inr e => ret (inr e)
                          end w'))) = w') by (by intros [f|e] w').
  rewrite Hsnd. by apply Holds_Peek.
Qed.

Lemma Put_GetString_roundtrip_witness :
  fst (GetString (Peek 0%nat)
         (snd (Put 0%nat (NewBufferString "hello") freshQueue)))
  = inl "hello".
Proof.
  pose proof (Put_GetString_roundtrip 0%nat "hello" freshQueue
                freshQueue_Holds) as H.
  destruct H as [H1 _]; [vm_compute; reflexivity|]. exact H1.
Defined.

(** ** Attach *)

Lemma Attach_rename_fails (p : ptr) (file : path) (e : error) (w : World) :
  allocated p w ->
  renameResult file w = Some e ->
  let r := Attach p file w in
  fst r = Some (ErrWrap "dfq: attach to queue"
                  (ErrWrap "rename temp file to queue element" e))
  /\ queues (snd r) = queues w
  /\ files (snd r) = files w.
Proof.
  intros Hp Hr. cbv zeta. rewrite Attach_eq by done. cbv zeta.
  rewrite osRename_eq. cbn [fst snd]. rewrite Hr. cbn [fst snd queues files].
  split; [reflexivity|]. split; [reflexivity|].
  unfold renameResult in Hr. destruct (injected w); [reflexivity|].
  destruct (files w !! file); [discriminate|reflexivity].
Qed.

(** X4.  When the rename fails, be it that the file to attach is not
    there or that the system reports an error, [Attach] returns that
    error wrapped twice and changes nothing: the writer's counter and
    the length are not advanced, no signal is raised, and the files
    are as before. *)
Theorem Attach_failure (p : ptr) (file : path) (e : error) (w : World) :
  allocated p w ->
  renameResult file w = Some e ->
  let r := Attach p file w in
  fst r = Some (ErrWrap "dfq: attach to queue"
                  (ErrWrap "rename temp file to queue element" e))
  /\ queues (snd r) = queues w
  /\ files (snd r) = files w.
Proof. exact (Attach_rename_fails p file e w). Qed.

Lemma Attach_failure_witness :
  let r := Attach 0%nat (Join "elsewhere" "missing") oneInQueue in
  fst r = Some (ErrWrap "dfq: attach to queue"
                  (ErrWrap "rename temp file to queue element" ErrNotExist))
  /\ queues (snd r) = queues oneInQueue
  /\ files (snd r) = files oneInQueue.
Proof.
  apply (Attach_failure 0%nat (Join "elsewhere" "missing") ErrNotExist
           oneInQueue).
  - vm_compute. lia.
  - vm_compute. reflexivity.
Defined.

(** X5.  When the file is there and the system fails no call,
    [Attach] returns no error and moves the file: its bytes are the
    record at the id the writer's counter held, the old path is gone,
    every other file is untouched, the counter and the length have
    gone up by one in 64-bit arithmetic and the signal is pending. *)
Theorem Attach_moves_file (p : ptr) (file : path) (b : bytes) (w : World) :
  allocated p w ->
  injected w = None ->
  files w !! file = Some b ->
  let q := queueAt p w in
  let new := Join (directory q) (Sprint (counter q) dataSuffix) in
  let r := Attach p file w in
  fst r = None
  /\ files (snd r) !! new = Some b
  /\ (file <> new -> files (snd r) !! file = None)
  /\ (forall f, f <> file -> f <> new -> files (snd r) !! f = files w !! f)
  /\ queueAt p (snd r) = attachQueue q.
Proof.
  intros Hp Hinj Hfile. cbv zeta. rewrite Attach_eq by done. cbv zeta.
  rewrite osRename_eq. cbn [fst snd]. unfold renameResult.
  rewrite Hinj, Hfile. cbn [fst snd].
  unfold putQueue, withQueues. cbn [files queues].
  split; [reflexivity|]. split; [apply lookup_insert_eq|].
  split. { intros Hne. rewrite lookup_insert_ne by done. apply lookup_delete_eq. }
  split. { intros f Hf Hn. by rewrite lookup_insert_ne, lookup_delete_ne. }
  unfold queueAt at 1. unfold getQueue. cbn [fst queues].
  by rewrite list_lookup_insert_eq.
Qed.

Lemma Attach_moves_file_witness :
  let w := snd (osWrite (Join "inbox" "letter") (list_byte_of_string "hi")
                  oneInQueue) in
  let r := Attach 0%nat (Join "inbox" "letter") w in
  fst r = None
  /\ files (snd r) !! Join "q" "1.data" = Some (list_byte_of_string "hi")
  /\ files (snd r) !! Join "inbox" "letter" = None
  /\ fst (Len 0%nat (snd r)) = 2.
Proof.
  pose proof
    (Attach_moves_file 0%nat (Join "inbox" "letter") (list_byte_of_string "hi")
       (snd (osWrite (Join "inbox" "letter") (list_byte_of_string "hi")
               oneInQueue))) as H.
  destruct H as (H1 & H2 & H3 & _ & H5).
  - vm_compute. lia.
  - reflexivity.
  - vm_compute. reflexivity.
  - cbv zeta. split; [exact H1|]. split; [exact H2|].
    split; [apply H3; discriminate|].
    unfold Len. rewrite bind_eq, getQueue_eq. cbn [fst snd ret].
    rewrite H5. reflexivity.
Defined.

(** ** Stream, when the attach fails *)

(** X6.  When the handler succeeded but the rename of the scratch
    file fails, [Stream] returns the error of [Attach], asks for the
    removal of the scratch file as its last act, and leaves the queue
    structs and every other file as the handler left them; the
    scratch file is gone unless the system fails the removal too. *)
Theorem Stream_attach_failure
    (p : ptr) (handler : path -> M (option error)) (w : World)
    (tmp : path) (w1 w2 : World) (e : error) :
  osTempFile (directory (queueAt p w)) w = (inl tmp, w1) ->
  handler tmp w1 = (None, w2) ->
  allocated p w2 ->
  renameResult tmp w2 = Some e ->
  let r := Stream p handler w in
  fst r = Some (ErrWrap "dfq: attach to queue"
                  (ErrWrap "rename temp file to queue element" e))
  /\ queues (snd r) = queues w2
  /\ (forall f, f <> tmp -> files (snd r) !! f = files w2 !! f)
  /\ (default None (faults w2 !! 1%nat) = None -> files (snd r) !! tmp = None)
  /\ exists res, last (trace (snd r)) = Some (EvRemove tmp res).
Proof.
  intros Htmp Hh Hp Hr. cbv zeta.
  rewrite (Stream_handler_ok _ _ _ _ _ _ Htmp Hh). cbv zeta.
  destruct (Attach_rename_fails p tmp e w2 Hp Hr) as (H1 & H2 & H3).
  rewrite H1. cbn [fst snd]. rewrite osRemove_eq. cbn [fst snd queues files trace].
  split; [reflexivity|]. split; [exact H2|].
  assert (Hinj : injected (snd (Attach p tmp w2))
                 = default None (faults w2 !! 1%nat)).
  { rewrite Attach_eq by done. cbv zeta. rewrite osRename_eq. cbn [fst snd].
    rewrite Hr. cbn [snd]. unfold injected. cbn [faults].
    by destruct (faults w2) as [|? [|? ?]]. }
  split.
  { intros f Hf. destruct (injected _); [by rewrite H3|].
    by rewrite lookup_delete_ne, H3. }
  split.
  { intros Hnone. rewrite Hinj, Hnone. apply lookup_delete_eq. }
  eexists. apply last_snoc.
Qed.

Lemma Stream_attach_failure_witness :
  let w := withFaults [None; None; Some EIO] oneInQueue in
  let r := Stream 0%nat writingHandler w in
  fst r = Some (ErrWrap "dfq: attach to queue"
                  (ErrWrap "rename temp file to queue element" EIO))
  /\ files (snd r) !! Join "q" "1.temp" = None
  /\ queues (snd r) = queues oneInQueue.
Proof.
  pose proof
    (Stream_attach_failure 0%nat writingHandler
       (withFaults [None; None; Some EIO] oneInQueue) (Join "q" "1.temp")
       (snd (osTempFile "q" (withFaults [None; None; Some EIO] oneInQueue)))
       (snd (writingHandler (Join "q" "1.temp")
               (snd (osTempFile "q"
                       (withFaults [None; None; Some EIO] oneInQueue)))))
       EIO) as H.
  destruct H as (H1 & H2 & _ & H4 & _).
  - vm_compute. reflexivity.
  - vm_compute. reflexivity.
  - vm_compute. lia.
  - vm_compute. reflexivity.
  - cbv zeta. split; [exact H1|]. split; [apply H4; reflexivity|].
    rewrite H2. vm_compute. reflexivity.
Defined.

(** ** Destroy *)



(** ** Steal between two queues *)

Lemma Steal_asQueue_eq dst src w :
  Steal dst (asQueue src) w
  = match fst (Attach dst (currentPath (queueAt src w)) w) with
    | None => Commit src (snd (Attach dst (currentPath (queueAt src w)) w))
    | Some _ =>
        Stream dst (stealCopy (asQueue src))
               (snd (Attach dst (currentPath (queueAt src w)) w))
    end.
Proof.
  unfold Steal, asQueue. cbn [qFile qCommit qPeek]. rewrite !bind_eq.
  change (File src w) with (currentPath (queueAt src w), w). cbn [fst snd].
  destruct (fst (Attach dst (currentPath (queueAt src w)) w)); reflexivity.
Qed.

Lemma Steal_fast dst src b w :
  allocated src w ->
  allocated dst w ->
  src <> dst ->
  faults w = [] ->
  files w !! currentPath (queueAt src w) = Some b ->
  currentPath (queueAt src w)
  <> Join (directory (queueAt dst w))
          (Sprint (counter (queueAt dst w)) dataSuffix) ->
  fst (Steal dst (asQueue src) w) = None
  /\ faults (snd (Steal dst (asQueue src) w)) = []
  /\ files (snd (Steal dst (asQueue src) w))
     = <[Join (directory (queueAt dst w))
              (Sprint (counter (queueAt dst w)) dataSuffix) := b]>
         (delete (currentPath (queueAt src w)) (files w))
  /\ queues (snd (Steal dst (asQueue src) w))
     = <[src := commitQueue (queueAt src w)]>
         (<[dst := attachQueue (queueAt dst w)]> (queues w)).
Proof.
  intros Hs Hd Hne Hf Hb Hpath.
  assert (Hinj : injected w = None) by (unfold injected; by rewrite Hf).
  rewrite Steal_asQueue_eq, Attach_eq by done. cbv zeta.
  rewrite osRename_eq. cbn [fst snd]. unfold renameResult.
  rewrite Hinj, Hb. cbn [fst snd].
  set (w1 := putQueue dst (attachQueue (queueAt dst w)) _).
  assert (Hs1 : allocated src w1) by (by apply allocated_putQueue).
  assert (Hq1 : queueAt src w1 = queueAt src w).
  { unfold w1. rewrite queueAt_other by done. reflexivity. }
  rewrite Commit_eq by done. cbv zeta. rewrite Hq1, osRemove_eq.
  cbn [fst snd]. unfold removeResult, injected.
  unfold w1, putQueue, withQueues. cbn [files queues faults]. rewrite Hf.
  cbn [tail head default from_option id].
  rewrite lookup_insert_ne by done. rewrite lookup_delete_eq.
  cbn [IsNotExist files queues faults tail].
  repeat split.
  rewrite delete_id; [reflexivity|].
  rewrite lookup_insert_ne by done. apply lookup_delete_eq.
Qed.

(** X8.  [Steal] from a queue that holds [b :: ls] into a queue in
    another directory that holds [ld], no system call failing,
    returns no error; afterwards the source holds [ls] and the
    destination holds [ld] followed by [b]: the oldest record of the
    source has become the newest of the destination, its bytes
    unchanged, and nothing else has moved. *)
Theorem Steal_moves_oldest
    (dst src : ptr) (b : bytes) (ls ld : list bytes) (w : World) :
  Holds src (b :: ls) w ->
  Holds dst ld w ->
  directory (queueAt src w) <> directory (queueAt dst w) ->
  counter (queueAt dst w) < Int64.max ->
  let r := Steal dst (asQueue src) w in
  fst r = None
  /\ Holds src ls (snd r)
  /\ Holds dst (app ld [b]) (snd r).
Proof.
  intros HS HD Hdir Hlt. cbv zeta.
  pose proof HS as (Hs & Hf & _). pose proof HD as (Hd & _).
  assert (Hne : src <> dst) by (intros ->; by apply Hdir).
  pose proof (Holds_front src _ w HS) as Hfront. cbn [head] in Hfront.
  assert (Hpath : currentPath (queueAt src w)
                  <> Join (directory (queueAt dst w))
                          (Sprint (counter (queueAt dst w)) dataSuffix)).
  { unfold currentPath, Join. intros [= Heq _]. by apply Hdir. }
  destruct (Steal_fast dst src b w Hs Hd Hne Hf Hfront Hpath)
    as (H1 & H2 & H3 & H4).
  assert (Hinj : injected w = None) by (unfold injected; by rewrite Hf).
  split; [exact H1|]. split.
  - destruct (Holds_Commit src b ls w HS) as [_ HC].
    apply (Holds_local src ls (snd (Commit src w))); [| | | |exact HC].
    + unfold allocated. rewrite H4, !length_insert. exact Hs.
    + exact H2.
    + rewrite Commit_queue by done. unfold queueAt, getQueue. cbn [fst].
      rewrite H4. rewrite list_lookup_insert_eq; [reflexivity|].
      rewrite length_insert. exact Hs.
    + intros name. rewrite Commit_queue by done. cbn [commitQueue directory].
      rewrite Commit_files, Hinj, H3 by done.
      rewrite lookup_insert_ne; [reflexivity|].
      unfold Join. intros [= Heq _]. by apply Hdir.
  - set (wb := mkWorld
                 (<[Join (directory (queueAt dst w))
                         (Sprint (counter (queueAt dst w)) dataSuffix) := b]>
                    (files w))
                 (<[dst := attachQueue (queueAt dst w)]> (queues w))
                 [] 0%N []).
    assert (HB : Holds dst (app ld [b]) wb).
    { apply (Holds_append dst ld w b HD Hlt wb); reflexivity. }
    assert (Hqb : queueAt dst wb = attachQueue (queueAt dst w)).
    { unfold queueAt at 1. unfold getQueue, wb. cbn [fst queues].
      by rewrite list_lookup_insert_eq. }
    apply (Holds_local dst _ wb); [| | | |exact HB].
    + unfold allocated. rewrite H4, !length_insert. exact Hd.
    + exact H2.
    + rewrite Hqb. unfold queueAt, getQueue. cbn [fst]. rewrite H4.
      rewrite list_lookup_insert_ne by done.
      by rewrite list_lookup_insert_eq.
    + intros name. rewrite Hqb. cbn [attachQueue directory]. rewrite H3.
      unfold wb. cbn [files].
      destruct (decide (Join (directory (queueAt dst w))
                             (Sprint (counter (queueAt dst w)) dataSuffix)
                        = Join (directory (queueAt dst w)) name)) as [Heq|Hn].
      * rewrite Heq, !lookup_insert_eq. reflexivity.
      * rewrite !lookup_insert_ne by done. apply lookup_delete_ne.
        unfold currentPath, Join. intros [= Heq _]. by apply Hdir.
Qed.

Lemma twoQueues_Holds :
  Holds 0%nat [list_byte_of_string "hello"] twoQueues
  /\ Holds 1%nat [] twoQueues.
Proof.
  pose (wa := snd (Open "a" emptyWorld)).
  pose (wab := snd (Open "b" wa)).
  assert (Ha : Holds 0%nat [] wa).
  { destruct (Open_empty_Holds "a" emptyWorld) as [HH _];
      [reflexivity| |exact HH]. intros name. apply lookup_empty. }
  assert (Hb : Holds 1%nat [] wab).
  { destruct (Open_empty_Holds "b" wa) as [HH _];
      [reflexivity| |exact HH]. intros name. apply lookup_empty. }
  assert (Ha' : Holds 0%nat [] wab).
  { apply (Holds_local 0%nat [] wa); [vm_compute; lia|reflexivity|reflexivity| |exact Ha].
    intros name. reflexivity. }
  destruct (Holds_Put_clean 0%nat [] (NewBufferString "hello") wab Ha')
    as (_ & H2 & _); [vm_compute; reflexivity|reflexivity|].
  split; [exact H2|].
  apply (Holds_local 1%nat [] wab); [vm_compute; lia|reflexivity|reflexivity| |exact Hb].
  intros name.
  assert (Hfs : files twoQueues
                = <[Join "a" "0.data" := list_byte_of_string "hello"]> ∅)
    by (vm_compute; reflexivity).
  change (files (snd (Put 0%nat (NewBufferString "hello") wab)))
    with (files twoQueues).
  rewrite Hfs. rewrite lookup_insert_ne by discriminate. reflexivity.
Qed.

Lemma Steal_moves_oldest_witness :
  let r := Steal 1%nat (asQueue 0%nat) twoQueues in
  fst r = None
  /\ Holds 0%nat [] (snd r)
  /\ Holds 1%nat [list_byte_of_string "hello"] (snd r).
Proof.
  destruct twoQueues_Holds as [H0 H1].
  apply (Steal_moves_oldest 1%nat 0%nat (list_byte_of_string "hello") [] []
           twoQueues H0 H1).
  - vm_compute. discriminate.
  - vm_compute. reflexivity.
Defined.

(** X9.  [Steal] from a queue that holds nothing returns
    [ErrEmptyQueue] and changes neither queue: the rename of the fast
    path finds no file, the copy finds nothing to read, and the
    scratch file made for it is removed again. *)
Theorem Steal_from_empty (dst src : ptr) (ld : list bytes) (w : World) :
  Holds src [] w ->
  Holds dst ld w ->
  let r := Steal dst (asQueue src) w in
  fst r = Some ErrEmptyQueue
  /\ files (snd r) = files w
  /\ queues (snd r) = queues w
  /\ faults (snd r) = [].
Proof.
  intros HS HD. cbv zeta.
  pose proof HS as (Hs & Hf & _). pose proof HD as (Hd & _).
  pose proof (Holds_front src _ w HS) as Hfront. cbn [head] in Hfront.
  assert (Hinj : injected w = None) by (unfold injected; by rewrite Hf).
  assert (Hr : renameResult (currentPath (queueAt src w)) w = Some ErrNotExist).
  { unfold renameResult. by rewrite Hinj, Hfront. }
  destruct (Attach_rename_fails dst _ _ w Hd Hr) as (A1 & A2 & A3).
  rewrite Steal_asQueue_eq, A1.
  set (w1 := snd (Attach dst (currentPath (queueAt src w)) w)) in *.
  assert (Hf1 : faults w1 = []).
  { unfold w1. rewrite Attach_eq by done. cbv zeta. rewrite osRename_eq.
    cbn [fst snd]. rewrite Hr. cbn [snd faults]. by rewrite Hf. }
  assert (HD1 : Holds dst ld w1) by (by apply (Holds_same dst ld w)).
  assert (Hq1 : forall p, queueAt p w1 = queueAt p w).
  { intros p. unfold queueAt, getQueue. cbn [fst]. by rewrite A2. }
  assert (Hinj1 : injected w1 = None) by (unfold injected; by rewrite Hf1).
  pose proof (osTempFile_free (directory (queueAt dst w1)) w1 Hinj1
                (Holds_temp_free dst ld w1 _ HD1)) as Htmp.
  destruct (osTempFile (directory (queueAt dst w1)) w1) as [r0 w2] eqn:Hos.
  cbn [fst] in Htmp. subst r0. pose proof Hos as Hos'.
  apply osTempFile_inl in Hos' as (n & Hn & Hfresh & _ & Hw2).
  assert (Hpeek : fst (Peek src w2) = inr ErrEmptyQueue).
  { rewrite Peek_eq. cbn [fst]. unfold openResult, injected.
    assert (Hq2 : queueAt src w2 = queueAt src w).
    { rewrite <- Hq1. subst w2. reflexivity. }
    rewrite Hq2. subst w2. cbn [faults files]. rewrite Hf1.
    cbn [tail head default from_option id].
    rewrite lookup_insert_ne.
    - by rewrite A3, Hfront.
    - rewrite Hn. unfold currentPath, Join. intros [= _ Heq].
      by apply tempName_not_data in Heq. }
  erewrite Stream_handler_fails; [|exact Hos|].
  2:{ unfold stealCopy, asQueue. cbn [qPeek]. rewrite bind_eq, Hpeek.
      reflexivity. }
  rewrite osRemove_eq. cbn [fst snd files queues faults].
  rewrite Peek_eq, osOpen_eq. cbn [snd files queues faults injected].
  unfold injected. subst w2. cbn [faults files queues]. rewrite Hf1.
  cbn [tail head default from_option id].
  split; [reflexivity|]. split.
  { rewrite delete_insert_eq, delete_id by done. exact A3. }
  split; [exact A2|reflexivity].
Qed.

Lemma Steal_from_empty_witness :
  let r := Steal 0%nat (asQueue 1%nat) twoQueues in
  fst r = Some ErrEmptyQueue
  /\ files (snd r) = files twoQueues
  /\ queues (snd r) = queues twoQueues.
Proof.
  destruct twoQueues_Holds as [H0 H1].
  destruct (Steal_from_empty 0%nat 1%nat [list_byte_of_string "hello"]
              twoQueues H1 H0) as (E1 & E2 & E3 & _).
  cbv zeta. split; [exact E1|]. split; [exact E2|exact E3].
Defined.

(** ** Record names are parsed back to their ids *)

Lemma substring_append_head (a b : string) :
  substring 0 (String.length a) (a +:+ b) = a.
Proof. induction a as [|c a IH]; simpl; [by destruct b|]. by f_equal. Qed.

Lemma cutSuffix_Sprint id : cutSuffix (Sprint id dataSuffix) dataSuffix = pretty id.
Proof.
  unfold cutSuffix, Sprint. rewrite length_append.
  replace (String.length (pretty id) + String.length dataSuffix
           - String.length dataSuffix)%nat
    with (String.length (pretty id)) by lia.
  apply substring_append_head.
Qed.

Lemma digit_pretty_N_char d : (d < 10)%N -> digit (pretty_N_char d) = Some d.
Proof.
  intros Hd.
  assert (d = 0 \/ d = 1 \/ d = 2 \/ d = 3 \/ d = 4 \/ d = 5 \/ d = 6
          \/ d = 7 \/ d = 8 \/ d = 9)%N as Hcases by lia.
  repeat (destruct Hcases as [->|Hcases]; [reflexivity|]).
  by subst d.
Qed.

Lemma parseDigits_pretty_N_go x : forall s,
  (x < 2 ^ 64)%N ->
  parseDigits (pretty_N_go x s) 0 = parseDigits s x.
Proof.
  induction (N.lt_wf_0 x) as [x _ IH]. intros s Hx.
  destruct (decide (x = 0)%N) as [->|Hpos].
  - by rewrite pretty_N_go_0.
  - rewrite pretty_N_go_step by lia.
    assert (Hdiv : (x `div` 10 < x)%N) by (apply N.div_lt; lia).
    rewrite IH by lia. cbn [parseDigits].
    rewrite digit_pretty_N_char by (apply N.mod_lt; lia).
    replace (x `div` 10 * 10 + x `mod` 10)%N with x
      by (rewrite (N.div_mod x 10) at 1 by lia; lia).
    destruct (N.leb_spec (2 ^ 64) x) as [Hle|_]; [lia|reflexivity].
Qed.

Lemma parseDigits_pretty_pos x :
  (N.pos x < 2 ^ 64)%N ->
  exists c rest,
    pretty (N.pos x) = String c rest
    /\ digit c <> None
    /\ parseDigits (String c rest) 0 = inl (N.pos x).
Proof.
  intros Hx.
  assert (Hp : parseDigits (pretty (N.pos x)) 0 = inl (N.pos x)).
  { unfold pretty, pretty_N. rewrite decide_False by done.
    by rewrite parseDigits_pretty_N_go. }
  destruct (pretty (N.pos x)) as [|c rest]; [discriminate|].
  exists c, rest. split; [reflexivity|]. split; [|exact Hp].
  cbn [parseDigits] in Hp. intros Hd. by rewrite Hd in Hp.
Qed.

Lemma digit_not_sign c :
  digit c <> None -> Ascii.eqb c "+" = false /\ Ascii.eqb c "-" = false.
Proof.
  intros Hd. split; apply Ascii.eqb_neq; intros ->; by apply Hd.
Qed.

Lemma ParseInt_pretty id : Int64.in_range id -> ParseInt (pretty id) = inl id.
Proof.
  unfold Int64.in_range, Int64.min, Int64.max. intros Hr.
  destruct id as [|x|x].
  - reflexivity.
  - destruct (parseDigits_pretty_pos x) as (c & rest & Hs & Hd & Hp); [lia|].
    change (pretty (Z.pos x)) with (pretty (N.pos x)). rewrite Hs.
    destruct (digit_not_sign c Hd) as [Hplus Hminus].
    unfold ParseInt. rewrite Hplus, Hminus. cbn [orb negb andb]. rewrite Hp.
    destruct (Z.leb_spec (2 ^ 63) (Z.of_N (N.pos x))) as [Hle|_]; [lia|].
    reflexivity.
  - destruct (parseDigits_pretty_pos x) as (c & rest & Hs & Hd & Hp); [lia|].
    change (pretty (Z.neg x)) with (String "-" (pretty (N.pos x))).
    rewrite Hs. unfold ParseInt. cbn [Ascii.eqb Bool.eqb orb negb andb].
    rewrite Hp.
    destruct (Z.ltb_spec (2 ^ 63) (Z.of_N (N.pos x))) as [Hlt|_]; [lia|].
    reflexivity.
Qed.

Lemma record_names_parse id :
  Int64.in_range id ->
  HasSuffix (Sprint id dataSuffix) dataSuffix = true
  /\ ParseInt (cutSuffix (Sprint id dataSuffix) dataSuffix) = inl id.
Proof.
  intros Hr. split; [apply HasSuffix_data|].
  rewrite cutSuffix_Sprint. by apply ParseInt_pretty.
Qed.

(** X10.  The name [attachToQueue] gives a record and the way
    [synchronizeState] reads names agree: for every int64 [id], the
    name made of [id] and the data suffix is recognised as a record
    and parsed back to [id], and it is not taken for a scratch file;
    two ids never share a name. *)
Theorem record_name_roundtrip (id : Z) :
  Int64.in_range id ->
  HasSuffix (Sprint id dataSuffix) dataSuffix = true
  /\ HasSuffix (Sprint id dataSuffix) tempSuffix = false
  /\ ParseInt (cutSuffix (Sprint id dataSuffix) dataSuffix) = inl id
  /\ dataIds [Sprint id dataSuffix] = [id]
  /\ forall id', Sprint id' dataSuffix = Sprint id dataSuffix -> id' = id.
Proof.
  intros Hr. split; [apply HasSuffix_data|].
  split; [unfold Sprint; by rewrite HasSuffix_append|].
  assert (Hparse : ParseInt (cutSuffix (Sprint id dataSuffix) dataSuffix)
                   = inl id)
    by (rewrite cutSuffix_Sprint; by apply ParseInt_pretty).
  split; [exact Hparse|]. split.
  - by rewrite (dataIds_record _ [] id (HasSuffix_data id) Hparse).
  - intros id'. apply Sprint_inj.
Qed.

Lemma record_name_roundtrip_witness :
  ParseInt (cutSuffix (Sprint (-9223372036854775808) dataSuffix) dataSuffix)
  = inl (-9223372036854775808).
Proof.
  destruct (record_name_roundtrip (-9223372036854775808)) as (_ & _ & H & _).
  - vm_compute. split; discriminate.
  - exact H.
Defined.

(** ** Open and the recovery scan *)

Lemma syncLoop_queues dir names : forall i a b w,
  queues (snd (syncLoop dir names i a b w)) = queues w.
Proof.
  induction names as [|n l IH]; intros i a b w; [reflexivity|].
  cbn [syncLoop].
  destruct (HasSuffix n dataSuffix).
  - destruct (ParseInt _) as [id|e]; [|reflexivity].
    destruct (i =? 0)%nat; [apply IH|].
    destruct (b <? id); [apply IH|]. destruct (id <? a); apply IH.
  - destruct (HasSuffix n tempSuffix); [|apply IH].
    rewrite bind_eq. destruct (fst (osRemove _ w)) eqn:Hr.
    + rewrite osRemove_eq. reflexivity.
    + rewrite IH, osRemove_eq. reflexivity.
Qed.

Lemma Open_mkdir_fails dir w e :
  injected w = Some e -> fst (Open dir w) = (None, Some e).
Proof.
  intros Hinj. unfold Open, osMkdirAll. rewrite !bind_eq. unfold fault.
  cbn [fst snd]. fold (injected w). rewrite Hinj. reflexivity.
Qed.

Lemma Open_mkdir_ok dir w :
  injected w = None ->
  Open dir w
  = ((Some (List.length (queues w)),
      fst (synchronizeState (List.length (queues w)) (afterMkdir dir w))),
     snd (synchronizeState (List.length (queues w)) (afterMkdir dir w))).
Proof.
  intros Hinj. unfold Open, osMkdirAll. rewrite !bind_eq. unfold fault.
  cbn [fst snd]. fold (injected w). rewrite Hinj. reflexivity.
Qed.

Lemma queueAt_afterMkdir dir w :
  queueAt (List.length (queues w)) (afterMkdir dir w)
  = mkQueue dir false 0 0 0.
Proof.
  unfold queueAt, getQueue, afterMkdir. cbn [fst queues].
  by rewrite list_lookup_middle.
Qed.

Lemma synchronizeState_readdir_fails p w e :
  injected w = Some e ->
  fst (synchronizeState p w) = Some e
  /\ queues (snd (synchronizeState p w)) = queues w.
Proof.
  intros Hinj. unfold synchronizeState, osReadDir.
  rewrite !bind_eq, getQueue_eq. unfold fault. cbn [fst snd].
  fold (injected w). rewrite Hinj. split; reflexivity.
Qed.

Lemma synchronizeState_readdir_ok p w :
  injected w = None ->
  synchronizeState p w
  = (let dir := directory (queueAt p w) in
     let r := syncLoop dir (merge_sort String.le (dirNames dir (files w)))
                       0 0 0 (afterReadDir dir w) in
     match fst r with
     | inr e => (Some e, snd r)
     | inl (mn, mx) =>
         (None,
          putQueue p (setLength (Int64.sub mx mn)
                        (setCounter mx (setCurrentId mn (queueAt p (snd r)))))
                   (snd r))
     end).
Proof.
  intros Hinj. unfold synchronizeState, osReadDir.
  rewrite !bind_eq, getQueue_eq. unfold fault. cbn [fst snd].
  fold (injected w). rewrite Hinj. cbv zeta.
  unfold log, getFiles. rewrite !bind_eq.
  cbn [fst snd ret files queues faults entropy trace].
  rewrite !bind_eq. fold (afterReadDir (directory (queueAt p w)) w).
  destruct (fst (syncLoop _ _ 0 0 0 _)) as [[mn mx]|e]; reflexivity.
Qed.

Lemma syncLoop_corrupt dir names name e :
  name ∈ names ->
  HasSuffix name dataSuffix = true ->
  ParseInt (cutSuffix name dataSuffix) = inr e ->
  forall i a b w, exists e', fst (syncLoop dir names i a b w) = inr e'.
Proof.
  intros Hin Hdata Hparse.
  induction names as [|n l IH]; intros i a b w; [by apply elem_of_nil in Hin|].
  cbn [syncLoop]. apply elem_of_cons in Hin as [<-|Hin].
  - rewrite Hdata, Hparse. eauto.
  - specialize (IH Hin). destruct (HasSuffix n dataSuffix).
    + destruct (ParseInt (cutSuffix n dataSuffix)) as [id|e0]; [|eauto].
      destruct (i =? 0)%nat; [apply IH|].
      destruct (b <? id); [apply IH|]. destruct (id <? a); apply IH.
    + destruct (HasSuffix n tempSuffix); [|apply IH].
      rewrite bind_eq. destruct (fst (osRemove _ w)); [eauto|apply IH].
Qed.

(** X11.  A directory that holds an entry with the data suffix whose
    stem is not a decimal int64 cannot be opened: whatever else is in
    it and whatever the system does, [Open] returns an error; and
    the queue it returns beside the error, when it returns one, has
    its three counters at zero. *)
Theorem Open_corrupt_name
    (dir name : string) (b : bytes) (e : error) (w : World) :
  files w !! Join dir name = Some b ->
  HasSuffix name dataSuffix = true ->
  ParseInt (cutSuffix name dataSuffix) = inr e ->
  (exists e', snd (fst (Open dir w)) = Some e')
  /\ forall p, fst (fst (Open dir w)) = Some p ->
       queueAt p (snd (Open dir w)) = mkQueue dir false 0 0 0.
Proof.
  intros Hfile Hdata Hparse.
  destruct (injected w) as [e0|] eqn:Hinj.
  { rewrite (Open_mkdir_fails dir w e0 Hinj). cbn [fst snd].
    split; [eauto|discriminate]. }
  rewrite Open_mkdir_ok by done. cbn [fst snd].
  pose proof (queueAt_afterMkdir dir w) as Hq.
  assert (Hfiles0 : files (afterMkdir dir w) = files w) by reflexivity.
  revert Hq Hfiles0.
  generalize (afterMkdir dir w) as w0. generalize (List.length (queues w)) as p.
  intros p w0 Hq Hfiles0.
  assert (Hzero : forall w', queues w' = queues w0 ->
                    queueAt p w' = mkQueue dir false 0 0 0).
  { intros w' Hqs. rewrite <- Hq. unfold queueAt, getQueue. cbn [fst].
    by rewrite Hqs. }
  destruct (injected w0) as [e0|] eqn:Hinj0.
  { destruct (synchronizeState_readdir_fails p w0 e0 Hinj0) as [H1 H2].
    rewrite H1. split; [eauto|]. intros ? [= <-]. by apply Hzero. }
  rewrite synchronizeState_readdir_ok by done. cbv zeta. rewrite Hq.
  cbn [directory].
  destruct (syncLoop_corrupt dir
              (merge_sort String.le (dirNames dir (files w0))) name e)
    with (i := 0%nat) (a := 0) (b := 0) (w := afterReadDir dir w0)
    as [e' He']; [|exact Hdata|exact Hparse|].
  { rewrite merge_sort_Permutation. apply elem_of_dirNames.
    rewrite Hfiles0. eauto. }
  rewrite He'. cbn [fst snd]. split; [eauto|]. intros ? [= <-].
  apply Hzero. rewrite syncLoop_queues. reflexivity.
Qed.

Lemma Open_corrupt_name_witness :
  exists e',
    snd (fst (Open "q" (worldOf [ (Join "q" "1.data", []);
                                  (Join "q" "x1.data", []) ] [])))
    = Some e'.
Proof.
  apply (Open_corrupt_name "q" "x1.data" [] ErrSyntax
           (worldOf [ (Join "q" "1.data", []); (Join "q" "x1.data", []) ] [])).
  - vm_compute. reflexivity.
  - vm_compute. reflexivity.
  - vm_compute. reflexivity.
Defined.

Lemma osRemove_ok p w :
  fst (osRemove p w) = None ->
  injected w = None /\ files (snd (osRemove p w)) = delete p (files w).
Proof.
  rewrite osRemove_eq. cbn [fst snd files]. unfold removeResult.
  destruct (injected w); [discriminate|]. auto.
Qed.

Lemma isScratch_data name :
  HasSuffix name dataSuffix = true -> isScratch name = false.
Proof. intros H. unfold isScratch. by rewrite H. Qed.

Lemma syncLoop_files dir names : forall i a b w r w',
  syncLoop dir names i a b w = (inl r, w') ->
  (forall name, name ∈ names -> isScratch name = true ->
     files w' !! Join dir name = None)
  /\ (forall d name, d <> dir \/ isScratch name = false ->
        files w' !! Join d name = files w !! Join d name)
  /\ (forall k, files w !! k = None -> files w' !! k = None).
Proof.
  induction names as [|n l IH]; intros i a b w r w'.
  - cbn. intros [= _ <-]. split; [|split]; auto.
    intros name Hin. by apply elem_of_nil in Hin.
  - cbn [syncLoop].
    assert (Hskip : isScratch n = false ->
              forall i' a' b',
                syncLoop dir l i' a' b' w = (inl r, w') ->
                (forall name, name ∈ n :: l -> isScratch name = true ->
                   files w' !! Join dir name = None)
                /\ (forall d name, d <> dir \/ isScratch name = false ->
                      files w' !! Join d name = files w !! Join d name)
                /\ (forall k, files w !! k = None -> files w' !! k = None)).
    { intros Hn i' a' b' Hrun. apply IH in Hrun as (H1 & H2 & H3).
      split; [|split]; auto.
      intros name Hin Hs. apply elem_of_cons in Hin as [->|Hin]; [congruence|].
      by apply H1. }
    destruct (HasSuffix n dataSuffix) eqn:Hdata.
    + pose proof (isScratch_data n Hdata) as Hn.
      destruct (ParseInt (cutSuffix n dataSuffix)) as [id|e]; [|discriminate].
      destruct (i =? 0)%nat; [by apply Hskip|].
      destruct (b <? id); [by apply Hskip|].
      destruct (id <? a); by apply Hskip.
    + destruct (HasSuffix n tempSuffix) eqn:Htemp.
      * rewrite bind_eq.
        destruct (fst (osRemove (Join dir n) w)) eqn:Hr; [discriminate|].
        apply osRemove_ok in Hr as [_ Hfs].
        intros Hrun. apply IH in Hrun as (H1 & H2 & H3).
        split; [|split].
        -- intros name Hin Hs. apply elem_of_cons in Hin as [->|Hin].
           ++ apply H3. rewrite Hfs. apply lookup_delete_eq.
           ++ by apply H1.
        -- intros d name Hor. rewrite H2, Hfs by done.
           apply lookup_delete_ne. unfold Join. intros [= <- <-].
           destruct Hor as [Hd|Hs]; [done|].
           unfold isScratch in Hs. rewrite Hdata, Htemp in Hs. discriminate.
        -- intros k Hk. apply H3. rewrite Hfs.
           apply lookup_delete_None. by right.
      * apply Hskip. unfold isScratch. by rewrite Hdata, Htemp.
Qed.

Lemma Open_success dir w p :
  fst (Open dir w) = (Some p, None) ->
  exists mn mx w',
    syncLoop dir (merge_sort String.le (dirNames dir (files w))) 0 0 0
             (afterReadDir dir (afterMkdir dir w))
    = (inl (mn, mx), w')
    /\ p = List.length (queues w)
    /\ snd (Open dir w)
       = putQueue p (mkQueue dir false mn mx (Int64.sub mx mn)) w'.
Proof.
  destruct (injected w) as [e0|] eqn:Hinj.
  { rewrite (Open_mkdir_fails dir w e0 Hinj). discriminate. }
  rewrite Open_mkdir_ok by done. cbn [fst snd].
  destruct (injected (afterMkdir dir w)) as [e0|] eqn:Hinj0.
  { destruct (synchronizeState_readdir_fails (List.length (queues w))
                (afterMkdir dir w) e0 Hinj0) as [H1 _].
    rewrite H1. discriminate. }
  rewrite synchronizeState_readdir_ok by done. cbv zeta.
  rewrite queueAt_afterMkdir. cbn [directory].
  change (files (afterMkdir dir w)) with (files w).
  destruct (syncLoop dir _ 0 0 0 _) as [[[mn mx]|e] w'] eqn:Hloop;
    cbn [fst snd]; [|discriminate].
  intros [= <-]. exists mn, mx, w'. split; [reflexivity|].
  split; [reflexivity|]. f_equal.
  assert (Hq : queueAt (List.length (queues w)) w' = mkQueue dir false 0 0 0).
  { rewrite <- (queueAt_afterMkdir dir w). unfold queueAt, getQueue.
    cbn [fst]. f_equal. f_equal.
    pose proof (syncLoop_queues dir
                  (merge_sort String.le (dirNames dir (files w))) 0 0 0
                  (afterReadDir dir (afterMkdir dir w))) as Hqs.
    rewrite Hloop in Hqs. exact Hqs. }
  rewrite Hq. reflexivity.
Qed.

(** X12.  When [Open] succeeds, no scratch file is left in the
    directory given: every entry with the scratch suffix (and not the
    data suffix) is gone, while the records, the entries of other
    kinds and the files of other directories are as before. *)
Theorem Open_removes_scratch (dir : string) (w : World) (p : ptr) :
  fst (Open dir w) = (Some p, None) ->
  (forall name, isScratch name = true ->
     files (snd (Open dir w)) !! Join dir name = None)
  /\ (forall d name, d <> dir \/ isScratch name = false ->
        files (snd (Open dir w)) !! Join d name = files w !! Join d name).
Proof.
  intros Hok. apply Open_success in Hok as (mn & mx & w' & Hloop & _ & ->).
  apply syncLoop_files in Hloop as (H1 & H2 & H3).
  change (files (putQueue p (mkQueue dir false mn mx (Int64.sub mx mn)) w'))
    with (files w').
  change (files (afterReadDir dir (afterMkdir dir w))) with (files w) in *.
  split; [|exact H2].
  intros name Hs.
  destruct (files w !! Join dir name) as [b|] eqn:Hb; [|by apply H3].
  apply H1; [|exact Hs]. rewrite merge_sort_Permutation.
  apply elem_of_dirNames. eauto.
Qed.

Lemma Open_removes_scratch_witness :
  files (snd (Open "q" crashedWorld)) !! Join "q" "3.temp" = None
  /\ files (snd (Open "q" crashedWorld)) !! Join "q" "7.data"
     = Some (list_byte_of_string "bb").
Proof.
  destruct (Open_removes_scratch "q" crashedWorld 0%nat) as [H1 H2].
  - vm_compute. reflexivity.
  - split; [apply H1; vm_compute; reflexivity|].
    rewrite H2 by (right; vm_compute; reflexivity). vm_compute. reflexivity.
Defined.

(** ** Reopening *)

Lemma minimum_in x l : minimum x l ∈ x :: l.
Proof.
  unfold minimum. induction l as [|y l IH]; cbn [foldr]; [by left|].
  destruct (Z.min_spec y (foldr Z.min x l)) as [[_ ->]|[_ ->]].
  - right. by left.
  - apply elem_of_cons in IH as [->|IH]; [by left|]. right. by right.
Qed.

Lemma minimum_le x l y : y ∈ x :: l -> minimum x l <= y.
Proof.
  unfold minimum. induction l as [|z l IH]; cbn [foldr].
  - intros Hin. apply elem_of_cons in Hin as [->|Hin]; [lia|].
    by apply elem_of_nil in Hin.
  - intros Hin. apply elem_of_cons in Hin as [->|Hin].
    + etrans; [apply Z.le_min_r|]. apply IH. by left.
    + apply elem_of_cons in Hin as [->|Hin]; [apply Z.le_min_l|].
      etrans; [apply Z.le_min_r|]. apply IH. by right.
Qed.

Lemma syncLoop_records dir names :
  (forall name, name ∈ names ->
     exists id, Int64.in_range id /\ name = Sprint id dataSuffix) ->
  forall i a b w, exists mn mx, syncLoop dir names i a b w = (inl (mn, mx), w).
Proof.
  induction names as [|n l IH]; intros Hall i a b w; [by exists a, b|].
  cbn [syncLoop].
  destruct (Hall n) as (id & Hr & ->); [by left|].
  destruct (record_names_parse id Hr) as [-> ->].
  assert (Hl : forall name, name ∈ l ->
            exists id, Int64.in_range id /\ name = Sprint id dataSuffix)
    by (intros name Hin; apply Hall; by right).
  destruct (i =? 0)%nat; [by apply IH|].
  destruct (b <? id); [by apply IH|]. destruct (id <? a); by apply IH.
Qed.

Lemma Holds_names p l w name :
  Holds p l w ->
  name ∈ dirNames (directory (queueAt p w)) (files w)
  <-> exists id,
        currentId (queueAt p w) <= id < counter (queueAt p w)
        /\ name = Sprint id dataSuffix.
Proof.
  intros HH. apply Holds_Consistent in HH as (_ & _ & _ & _ & _ & Hfiles).
  rewrite elem_of_dirNames. apply Hfiles.
Qed.

(** X13.  Opening again the directory of a queue that holds
    [b :: l], no system call failing, succeeds; it changes no file
    and leaves the first
    queue's struct alone, and the new queue's readCursor is the
    readCursor of the first: its [GetBytes] returns [b], the oldest
    payload not yet committed. *)
Theorem reopen_resumes_at_oldest
    (p : ptr) (b : bytes) (l : list bytes) (w : World) :
  Holds p (b :: l) w ->
  let r := Open (directory (queueAt p w)) w in
  let p' := List.length (queues w) in
  fst r = (Some p', None)
  /\ files (snd r) = files w
  /\ queueAt p (snd r) = queueAt p w
  /\ currentId (queueAt p' (snd r)) = currentId (queueAt p w)
  /\ fst (GetBytes (Peek p') (snd r)) = inl b.
Proof.
  intros HH. cbv zeta.
  pose proof (Holds_front p _ w HH) as Hfront. cbn [head] in Hfront.
  pose proof HH as (Hp & Hf & Hcur & Hcnt & Hmax & Hlen & Hfiles).
  cbn [List.length] in Hcnt.
  set (dir := directory (queueAt p w)) in *.
  assert (Hinj : injected w = None) by (unfold injected; by rewrite Hf).
  assert (Hinj0 : injected (afterMkdir dir w) = None)
    by (unfold injected, afterMkdir; cbn [faults]; by rewrite Hf).
  set (names := merge_sort String.le (dirNames dir (files w))).
  assert (Hnames : forall name, name ∈ names <->
            exists id, currentId (queueAt p w) <= id < counter (queueAt p w)
                       /\ name = Sprint id dataSuffix).
  { intros name. unfold names. rewrite merge_sort_Permutation.
    by apply (Holds_names p (b :: l) w). }
  assert (Hrange : forall id,
            currentId (queueAt p w) <= id < counter (queueAt p w) ->
            Int64.in_range id)
    by (unfold Int64.in_range, Int64.min, Int64.max in *; lia).
  destruct (syncLoop_records dir names) with (i := 0%nat) (a := 0) (b := 0)
    (w := afterReadDir dir (afterMkdir dir w)) as (mn & mx & Hloop).
  { intros name Hin. apply Hnames in Hin as (id & Hid & ->). eauto. }
  assert (Hmn : mn = currentId (queueAt p w)).
  { assert (Hcurin : Sprint (currentId (queueAt p w)) dataSuffix ∈ names)
      by (apply Hnames; exists (currentId (queueAt p w)); split; [lia|done]).
    assert (Hids : forall id, id ∈ dataIds names <->
              currentId (queueAt p w) <= id < counter (queueAt p w)).
    { intros id. unfold dataIds. rewrite list_elem_of_omap. split.
      - intros (name & Hin & Hsome).
        apply Hnames in Hin as (id' & Hid' & ->).
        destruct (record_names_parse id' (Hrange _ Hid')) as [H1 H2].
        rewrite H1, H2 in Hsome. by injection Hsome as <-.
      - intros Hid. exists (Sprint id dataSuffix). split.
        + apply Hnames. eauto.
        + destruct (record_names_parse id (Hrange _ Hid)) as [-> ->].
          reflexivity. }
    destruct names as [|n0 rest] eqn:Hn; [by apply elem_of_nil in Hcurin|].
    assert (Hd0 : HasSuffix n0 dataSuffix = true).
    { destruct (proj1 (Hnames n0)) as (id & _ & ->); [by left|].
      apply HasSuffix_data. }
    destruct (syncLoop_record_first _ _ _ _ _ _ _ Hd0 Hloop)
      as (id0 & Hids0 & -> & _).
    rewrite Hids0 in Hids.
    pose proof (minimum_in id0 (dataIds rest)) as Hin. apply Hids in Hin.
    pose proof (minimum_le id0 (dataIds rest) (currentId (queueAt p w))) as Hle.
    specialize (Hle ltac:(apply Hids; lia)). lia. }
  rewrite Open_mkdir_ok by done. cbn [fst snd].
  rewrite synchronizeState_readdir_ok by done. cbv zeta.
  rewrite queueAt_afterMkdir. cbn [directory].
  change (files (afterMkdir dir w)) with (files w). fold names.
  rewrite Hloop. cbn [fst snd].
  change (queueAt (List.length (queues w))
            (afterReadDir dir (afterMkdir dir w)))
    with (queueAt (List.length (queues w)) (afterMkdir dir w)).
  rewrite queueAt_afterMkdir.
  set (q' := setLength _ _).
  assert (Hq' : queueAt (List.length (queues w))
                  (putQueue (List.length (queues w)) q'
                     (afterReadDir dir (afterMkdir dir w))) = q').
  { apply queueAt_putQueue. unfold allocated, afterReadDir, afterMkdir.
    cbn [queues]. rewrite length_app. cbn. lia. }
  split; [reflexivity|]. split; [reflexivity|]. split.
  { unfold queueAt, getQueue, putQueue, withQueues, afterReadDir, afterMkdir.
    cbn [fst queues]. unfold allocated in Hp.
    rewrite list_lookup_insert_ne by lia. by rewrite lookup_app_l. }
  split. { rewrite Hq'. unfold q'. cbn. exact Hmn. }
  unfold GetBytes. rewrite bind_eq, Peek_eq. cbn [fst].
  rewrite Hq'. unfold openResult, injected, putQueue, withQueues, afterReadDir,
    afterMkdir. cbn [faults files]. rewrite Hf.
  cbn [tail head default from_option id].
  assert (Hpath : currentPath q' = currentPath (queueAt p w)).
  { unfold currentPath, q'. cbn [setLength setCounter setCurrentId directory
      currentId]. by rewrite Hmn. }
  rewrite Hpath, Hfront. reflexivity.
Qed.

Lemma reopen_resumes_at_oldest_witness :
  let r := Open "q" oneInQueue in
  fst r = (Some 1%nat, None)
  /\ fst (GetBytes (Peek 1%nat) (snd r)) = inl (list_byte_of_string "x").
Proof.
  destruct (reopen_resumes_at_oldest 0%nat (list_byte_of_string "x") []
              oneInQueue oneInQueue_Holds) as (H1 & _ & _ & _ & H5).
  cbv zeta. split; [exact H1|exact H5].
Defined.

(** X14.  When [Open] succeeds and the first entry of the sorted
    listing is a record, the new queue's readCursor is the least and
    its writer's counter the greatest of the ids parsed from the
    listing, whatever the order of the other entries and whatever
    scratch files or foreign entries lie between them. *)
Theorem Open_record_first (dir : string) (w : World) (p : ptr)
    (name : string) (rest : list string) :
  fst (Open dir w) = (Some p, None) ->
  merge_sort String.le (dirNames dir (files w)) = name :: rest ->
  HasSuffix name dataSuffix = true ->
  exists id,
    dataIds (name :: rest) = id :: dataIds rest
    /\ currentId (queueAt p (snd (Open dir w))) = minimum id (dataIds rest)
    /\ counter (queueAt p (snd (Open dir w))) = maximum id (dataIds rest)
    /\ (forall id', id' ∈ id :: dataIds rest ->
          currentId (queueAt p (snd (Open dir w))) <= id').
Proof.
  intros Hok Hlist Hdata.
  apply Open_success in Hok as (mn & mx & w' & Hloop & -> & ->).
  rewrite Hlist in Hloop.
  pose proof (syncLoop_queues dir (name :: rest) 0 0 0
                (afterReadDir dir (afterMkdir dir w))) as Hqs.
  rewrite Hloop in Hqs. cbn [snd] in Hqs.
  destruct (syncLoop_record_first _ _ _ _ _ _ _ Hdata Hloop)
    as (id & Hids & -> & ->).
  rewrite queueAt_putQueue.
  - exists id. cbn [currentId counter]. split; [exact Hids|].
    split; [reflexivity|]. split; [reflexivity|]. apply minimum_le.
  - unfold allocated. rewrite Hqs. unfold afterReadDir, afterMkdir.
    cbn [queues]. rewrite length_app. cbn. lia.
Qed.

Lemma Open_record_first_witness :
  exists id,
    dataIds ["10.data"; "2.data"; "7.temp"; "9.data"]
    = id :: dataIds ["2.data"; "7.temp"; "9.data"]
    /\ currentId (queueAt 0%nat
                    (snd (Open "q" (worldOf [ (Join "q" "9.data", []);
                                              (Join "q" "10.data", []);
                                              (Join "q" "7.temp", []);
                                              (Join "q" "2.data", []) ] []))))
       = 2.
Proof.
  destruct (Open_record_first "q"
              (worldOf [ (Join "q" "9.data", []); (Join "q" "10.data", []);
                         (Join "q" "7.temp", []); (Join "q" "2.data", []) ] [])
              0%nat "10.data" ["2.data"; "7.temp"; "9.data"])
    as (id & H1 & H2 & _).
  - vm_compute. reflexivity.
  - vm_compute. reflexivity.
  - vm_compute. reflexivity.
  - exists id. split; [exact H1|]. rewrite H2.
    assert (Hid : id = 10) by (vm_compute in H1; congruence).
    rewrite Hid. vm_compute. reflexivity.
Defined.

(** ** Stream, when no scratch file can be made *)

(** X15.  When the scratch file cannot be created, [Stream] returns
    the error wrapped as a failure to create the temp file, without
    running the handler: the files and the queue structs are as
    before whatever the handler would have done. *)
Theorem Stream_no_scratch_file
    (p : ptr) (handler : path -> M (option error)) (e : error) (w : World) :
  injected w = Some e ->
  let r := Stream p handler w in
  fst r = Some (ErrWrap "dfq: put: create temp file" e)
  /\ files (snd r) = files w
  /\ queues (snd r) = queues w
  /\ last (trace (snd r))
     = Some (EvTempFile (Join (directory (queueAt p w)) "*.temp") (Some e)).
Proof.
  intros Hinj. cbv zeta. unfold Stream, osTempFile.
  rewrite !bind_eq, getQueue_eq. unfold fault. cbn [fst snd].
  fold (injected w). rewrite Hinj. unfold log. rewrite !bind_eq.
  cbn [fst snd ret files queues trace].
  split; [reflexivity|]. split; [reflexivity|]. split; [reflexivity|].
  apply last_snoc.
Qed.

Lemma Stream_no_scratch_file_witness :
  let r := Stream 0%nat failingHandler (withFaults [Some EIO] oneInQueue) in
  fst r = Some (ErrWrap "dfq: put: create temp file" EIO)
  /\ files (snd r) = files oneInQueue.
Proof.
  destruct (Stream_no_scratch_file 0%nat failingHandler EIO
              (withFaults [Some EIO] oneInQueue)) as (H1 & H2 & _).
  - reflexivity.
  - cbv zeta. split; [exact H1|exact H2].
Defined.

(** ** The publication protocol *)

Lemma Put_trace p data w tmp w1 :
  allocated p w ->
  faults w = [] ->
  osTempFile (directory (queueAt p w)) w = (inl tmp, w1) ->
  trace (snd (Put p (mkReader data None) w))
  = app (trace w)
      [ EvTempFile tmp None; EvWrite tmp data None;
        EvRename tmp (Join (directory (queueAt p w))
                           (Sprint (counter (queueAt p w)) dataSuffix)) None ].
Proof.
  intros Hp Hf Htmp. unfold Put. pose proof Htmp as Htmp'.
  apply osTempFile_inl in Htmp' as (n & Hn & Hfresh & Hinj & Hw1).
  erewrite Stream_handler_ok; [|exact Htmp|].
  2:{ rewrite bind_eq, ioCopy_eq, osWrite_eq. cbn [fst snd rbytes rerr].
      replace (injected w1) with (@None error)
        by (subst w1; unfold injected; cbn; by rewrite Hf).
      mred. reflexivity. }
  subst w1. cbn [files queues faults entropy trace]. rewrite Hf.
  cbn [tail]. rewrite lookup_insert_eq, insert_insert_eq.
  cbn [default from_option id app].
  rewrite Attach_eq by exact Hp. cbv zeta.
  rewrite osRename_eq. cbn [fst snd].
  unfold renameResult, injected. cbn [faults files tail head default from_option id].
  rewrite !lookup_insert_eq.
  unfold putQueue, withQueues. cbn [files queues faults tail fst snd trace].
  rewrite <- !app_assoc. reflexivity.
Qed.

(** X16.  A successful [Put] on a queue that holds [l] makes exactly
    three system calls: it creates a scratch file, writes the payload
    to it, and renames it to the record of the id the writer's
    counter held.  No record file is written to or replaced: the
    target of the rename did not exist, and the payload is visible
    under a record name only through that one rename. *)
Theorem Put_publishes_by_rename
    (p : ptr) (l : list bytes) (data : bytes) (w : World) :
  Holds p l w ->
  let dir := directory (queueAt p w) in
  let tmp := Join dir (tempName (entropy w)) in
  let new := Join dir (Sprint (counter (queueAt p w)) dataSuffix) in
  trace (snd (Put p (mkReader data None) w))
  = app (trace w)
      [EvTempFile tmp None; EvWrite tmp data None; EvRename tmp new None]
  /\ isScratch (tempName (entropy w)) = true
  /\ files w !! tmp = None
  /\ files w !! new = None.
Proof.
  intros HH. cbv zeta. pose proof HH as (Hp & Hf & _).
  assert (Hinj : injected w = None) by (unfold injected; by rewrite Hf).
  pose proof (Holds_temp_free p l w (entropy w) HH) as Hfree.
  pose proof (osTempFile_free (directory (queueAt p w)) w Hinj Hfree) as Htmp.
  destruct (osTempFile (directory (queueAt p w)) w) as [r0 w1] eqn:Hos.
  cbn [fst] in Htmp. subst r0.
  split; [by apply (Put_trace p data w _ w1)|].
  split.
  { unfold isScratch. rewrite HasSuffix_temp. unfold tempName.
    by rewrite HasSuffix_append. }
  split; [exact Hfree|].
  apply (Consistent_next_id_free p (counter (queueAt p w))).
  by apply (Holds_Consistent p l).
Qed.

Lemma Put_publishes_by_rename_witness :
  trace (snd (Put 0%nat (mkReader (list_byte_of_string "y") None) oneInQueue))
  = app (trace oneInQueue)
      [ EvTempFile (Join "q" "1.temp") None;
        EvWrite (Join "q" "1.temp") (list_byte_of_string "y") None;
        EvRename (Join "q" "1.temp") (Join "q" "1.data") None ].
Proof.
  destruct (Put_publishes_by_rename 0%nat [list_byte_of_string "x"]
              (list_byte_of_string "y") oneInQueue oneInQueue_Holds)
    as (H & _).
  exact H.
Defined.

(** ** Steal from the queue itself *)

(** X17.  [Steal] with the queue itself as the source, on a queue
    that holds [b :: l] and no system call failing, returns no error
    and leaves the queue holding [l] followed by [b]: the oldest
    record is moved to the back under a new id, and nothing is
    lost. *)
Theorem Steal_from_itself (p : ptr) (b : bytes) (l : list bytes) (w : World) :
  Holds p (b :: l) w ->
  counter (queueAt p w) < Int64.max ->
  let r := Steal p (asQueue p) w in
  fst r = None
  /\ Holds p (app l [b]) (snd r).
Proof.
  intros HH Hlt. cbv zeta.
  pose proof (Holds_front p _ w HH) as Hfront. cbn [head] in Hfront.
  pose proof HH as (Hp & Hf & Hcur & Hcnt & Hmax & Hlen & Hfiles).
  cbn [List.length] in Hcnt, Hlen.
  assert (Hinj : injected w = None) by (unfold injected; by rewrite Hf).
  assert (Hpath : currentPath (queueAt p w)
                  <> Join (directory (queueAt p w))
                          (Sprint (counter (queueAt p w)) dataSuffix)).
  { unfold currentPath, Join. intros [= Heq]. apply Sprint_inj in Heq. lia. }
  rewrite Steal_asQueue_eq, Attach_eq by done. cbv zeta.
  rewrite osRename_eq. cbn [fst snd]. unfold renameResult.
  rewrite Hinj, Hfront. cbn [fst snd].
  set (w1 := putQueue p (attachQueue (queueAt p w)) _).
  assert (Hp1 : allocated p w1) by (by apply allocated_putQueue).
  assert (Hq1 : queueAt p w1 = attachQueue (queueAt p w))
    by (by apply queueAt_putQueue).
  rewrite Commit_eq by done. cbv zeta. rewrite Hq1.
  change (currentPath (attachQueue (queueAt p w)))
    with (currentPath (queueAt p w)).
  rewrite osRemove_eq. cbn [fst snd]. unfold removeResult, injected.
  unfold w1, putQueue, withQueues. cbn [files queues faults]. rewrite Hf.
  cbn [tail head default from_option id].
  rewrite lookup_insert_ne by done. rewrite lookup_delete_eq.
  cbn [IsNotExist]. split; [reflexivity|].
  rewrite list_insert_insert_eq.
  rewrite delete_id
    by (rewrite lookup_insert_ne by done; apply lookup_delete_eq).
  destruct (Holds_Commit p b l w HH) as [_ HC].
  pose proof (Commit_queue p w Hp) as HqC.
  pose proof (Commit_files p w Hp) as HfC. rewrite Hinj in HfC.
  assert (HcntC : counter (queueAt p (snd (Commit p w)))
                  = counter (queueAt p w)) by (by rewrite HqC).
  apply (Holds_append p l (snd (Commit p w)) b HC); [by rewrite HcntC|..].
  - reflexivity.
  - cbn [files]. rewrite HqC, HfC. reflexivity.
  - cbn [queues]. rewrite HqC.
    rewrite Commit_eq, osRemove_eq by done. cbn [snd].
    unfold putQueue, withQueues. cbn [queues].
    rewrite list_insert_insert_eq. f_equal.
    unfold commitQueue, attachQueue. cbn [directory currentId counter length].
    f_equal. unfold Int64.max in *.
    rewrite !Int64Facts.add_small
      by (rewrite ?Int64Facts.add_small;
          unfold Int64.in_range, Int64.min, Int64.max; lia).
    lia.
Qed.

Lemma Steal_from_itself_witness :
  let r := Steal 0%nat (asQueue 0%nat) oneInQueue in
  fst r = None
  /\ Holds 0%nat [list_byte_of_string "x"] (snd r)
  /\ currentId (queueAt 0%nat (snd r)) = 1.
Proof.
  destruct (Steal_from_itself 0%nat (list_byte_of_string "x") [] oneInQueue
              oneInQueue_Holds) as [H1 H2].
  - vm_compute. reflexivity.
  - cbv zeta. split; [exact H1|]. split; [exact H2|]. vm_compute. reflexivity.
Defined.

(** ** Commit on a queue that holds something *)

(** X18.  On a queue that holds [b :: l], no system call failing,
    [GetBytes] returns [b]; [Commit] then returns no error and
    removes the file of [b] and no other; afterwards the queue holds
    [l], [Len] is one less, and [GetBytes] returns the first payload
    of [l], or [ErrEmptyQueue] when [l] is empty. *)
Theorem Commit_drops_oldest (p : ptr) (b : bytes) (l : list bytes) (w : World) :
  Holds p (b :: l) w ->
  let r := Commit p w in
  fst (GetBytes (Peek p) w) = inl b
  /\ fst r = None
  /\ Holds p l (snd r)
  /\ files (snd r) = delete (currentPath (queueAt p w)) (files w)
  /\ fst (Len p (snd r)) = fst (Len p w) - 1
  /\ fst (GetBytes (Peek p) (snd r)) = listFront l.
Proof.
  intros HH. cbv zeta.
  destruct (Holds_Commit p b l w HH) as [H1 H2].
  pose proof HH as (Hp & Hf & _ & _ & _ & Hlen & _).
  pose proof H2 as (_ & _ & _ & _ & _ & Hlen' & _).
  split; [by rewrite (Holds_GetBytes p _ w HH)|].
  split; [exact H1|]. split; [exact H2|]. split.
  { rewrite Commit_files by done. unfold injected. by rewrite Hf. }
  split; [|by apply Holds_GetBytes].
  unfold Len. rewrite !bind_eq, !getQueue_eq. cbn [fst snd ret].
  rewrite Hlen, Hlen'. cbn [List.length]. lia.
Qed.

Lemma Commit_drops_oldest_witness :
  let r := Commit 0%nat oneInQueue in
  fst r = None
  /\ Holds 0%nat [] (snd r)
  /\ fst (GetBytes (Peek 0%nat) (snd r)) = inr ErrEmptyQueue.
Proof.
  destruct (Commit_drops_oldest 0%nat (list_byte_of_string "x") [] oneInQueue
              oneInQueue_Holds) as (_ & H2 & H3 & _ & _ & H6).
  cbv zeta. split; [exact H2|]. split; [exact H3|exact H6].
Defined.

(** ** Open, when the system fails it *)

(** X19.  The two ways the system can fail [Open] before the scan:
    when the directory cannot be made, [Open] returns no queue and
    the error, and allocates nothing; when the directory cannot be
    listed, [Open] returns the error together with a queue, whose
    three counters are zero.  In both cases no file is touched. *)
Theorem Open_failure_modes (dir : string) (e : error) (w : World) :
  (injected w = Some e ->
     fst (Open dir w) = (None, Some e)
     /\ queues (snd (Open dir w)) = queues w
     /\ files (snd (Open dir w)) = files w)
  /\ (injected w = None ->
      injected (afterMkdir dir w) = Some e ->
      fst (Open dir w) = (Some (List.length (queues w)), Some e)
      /\ queueAt (List.length (queues w)) (snd (Open dir w))
         = mkQueue dir false 0 0 0
      /\ files (snd (Open dir w)) = files w).
Proof.
  split.
  - intros Hinj. split; [by apply Open_mkdir_fails|].
    unfold Open, osMkdirAll. rewrite !bind_eq. unfold fault. cbn [fst snd].
    fold (injected w). rewrite Hinj. split; reflexivity.
  - intros Hinj Hinj0. rewrite Open_mkdir_ok by done. cbn [fst snd].
    destruct (synchronizeState_readdir_fails (List.length (queues w))
                (afterMkdir dir w) e Hinj0) as [H1 H2].
    rewrite H1. split; [reflexivity|]. split.
    + rewrite <- (queueAt_afterMkdir dir w). unfold queueAt, getQueue.
      cbn [fst]. by rewrite H2.
    + unfold synchronizeState, osReadDir. rewrite !bind_eq, getQueue_eq.
      unfold fault. cbn [fst snd]. fold (injected (afterMkdir dir w)).
      rewrite Hinj0. reflexivity.
Qed.

Lemma Open_failure_modes_witness :
  fst (Open "q" (withFaults [Some EIO] emptyWorld)) = (None, Some EIO)
  /\ fst (Open "q" (withFaults [None; Some EIO] emptyWorld))
     = (Some 0%nat, Some EIO).
Proof.
  split.
  - destruct (Open_failure_modes "q" EIO (withFaults [Some EIO] emptyWorld))
      as [H _].
    destruct H as [H _]; [reflexivity|exact H].
  - destruct (Open_failure_modes "q" EIO
                (withFaults [None; Some EIO] emptyWorld)) as [_ H].
    destruct H as [H _]; [reflexivity|reflexivity|exact H].
Defined.
